(** * Knob: angle/value conversion and gesture resolution

  A shallow embedding of [knob.py] (the Kivy garden [Knob] widget) and the
  properties of its touch handling.

  Numbers.  Kivy numeric properties and touch coordinates are Python
  numbers; they are modelled as real numbers ([R]), with [/] the true
  division of Python 3, which raises [ZeroDivisionError] on a zero divisor.
  The results of [round] and [int] are Python integers, modelled as [Z] and
  injected back with [IZR] where the source mixes them with floats.
  Rounding error of binary floating point is not modelled in the widget
  [Knob]; the quantizer, whose integer result the rounding of a product
  can change, is modelled a second time on binary64 numbers in [Double].

  Effects.  A method mutates the widget and may raise.  A raised exception
  does not undo assignments already made, so an [outcome] carries the state
  of the widget in both cases. *)

From Stdlib Require Import Reals Lra Lia ZArith Bool.
From Stdlib Require Import Zfloor Machin.
From Stdlib Require Import List.
From Stdlib Require Import Floats.

#[local] Open Scope R_scope.

(** ** Python primitives *)

Module Py.

Inductive exn : Set := ZeroDivisionError | ValueError.

Inductive result (A : Type) : Type :=
| Ok (a : A)
| Raise (e : exn).
Arguments Ok {A} a.
Arguments Raise {A} e.

Definition bind {A B : Type} (m : result A) (f : A -> result B) : result B :=
  match m with
  | Ok a => f a
  | Raise e => Raise e
  end.

(** [a / b] on numbers. *)
Definition truediv (a b : R) : result R :=
  if Req_dec_T b 0 then Raise ZeroDivisionError else Ok (a / b).

(** [round(x)]: the nearest integer, a tie going to the even one. *)
Definition round (x : R) : Z :=
  let f := Zfloor x in
  let d := x - IZR f in
  if Rlt_dec d (1 / 2) then f
  else if Rlt_dec (1 / 2) d then (f + 1)%Z
  else if Z.even f then f else (f + 1)%Z.

(** [int(x)]: truncation toward zero. *)
Definition int (x : R) : Z :=
  if Rle_dec 0 x then Zfloor x else Zceil x.

(** Comparisons, as the booleans Python computes. *)
Definition ge (a b : R) : bool := if Rle_dec b a then true else false.
Definition le (a b : R) : bool := if Rle_dec a b then true else false.
Definition gt (a b : R) : bool := if Rlt_dec b a then true else false.
Definition lt (a b : R) : bool := if Rlt_dec a b then true else false.
Definition ne (a b : R) : bool := if Req_dec_T a b then false else true.

End Py.

Notation "x <- m ;; f" := (Py.bind m (fun x => f))
(at level 61, m at next level, right associativity).

(** ** The widget *)

Module Knob.

Import Py.

(** The properties of the widget that the touch handling reads or writes.
    [pos] and [size] are inherited from [Widget]; textures, colours and the
    label only feed the canvas and are left out. *)
Record Knob : Type := mkKnob {
  pos : R * R;
  size : R * R;
  min : R;             (* NumericProperty(0) *)
  max : R;             (* NumericProperty(100) *)
  value : R;           (* NumericProperty(0) *)
  step : R;            (* BoundedNumericProperty(1, min=0) *)
  _angle : R;          (* NumericProperty(0) *)
  _angle_step : R      (* NumericProperty(0) *)
}.

Inductive outcome : Type :=
| Returns (self : Knob)
| Raises (e : exn) (self : Knob).

Definition state_of (o : outcome) : Knob :=
  match o with
  | Returns k => k
  | Raises _ k => k
  end.

(** Plain stores into one property. *)
Definition with_min (self : Knob) (v : R) : Knob :=
  mkKnob (pos self) (size self) v (max self) (value self) (step self)
         (_angle self) (_angle_step self).
Definition with_max (self : Knob) (v : R) : Knob :=
  mkKnob (pos self) (size self) (min self) v (value self) (step self)
         (_angle self) (_angle_step self).
Definition with_value (self : Knob) (v : R) : Knob :=
  mkKnob (pos self) (size self) (min self) (max self) v (step self)
         (_angle self) (_angle_step self).
Definition with_step (self : Knob) (v : R) : Knob :=
  mkKnob (pos self) (size self) (min self) (max self) (value self) v
         (_angle self) (_angle_step self).
Definition with__angle (self : Knob) (v : R) : Knob :=
  mkKnob (pos self) (size self) (min self) (max self) (value self) (step self)
         v (_angle_step self).
Definition with__angle_step (self : Knob) (v : R) : Knob :=
  mkKnob (pos self) (size self) (min self) (max self) (value self) (step self)
         (_angle self) v.

(** [Widget.center] and [Widget.collide_point]. *)
Definition center (self : Knob) : R * R :=
  (fst (pos self) + fst (size self) / 2, snd (pos self) + snd (size self) / 2).

Definition collide_point (self : Knob) (p : R * R) : bool :=
  le (fst (pos self)) (fst p) && le (fst p) (fst (pos self) + fst (size self))
  && le (snd (pos self)) (snd p) && le (snd p) (snd (pos self) + snd (size self)).

(** The expression of [_value]: the angle that stands for a value. *)
Definition angle_of_value (self : Knob) (v : R) : result R :=
  truediv ((v - min self) * 360) (- min self + max self).

(** The expression of the last line of [update_angle]: the value that
    stands for an angle. *)
Definition value_of_angle (self : Knob) (angle : R) : R :=
  (- min self + max self) * angle / 360 + min self.

(** [_value(self, o, value)], the observer bound to [value]. *)
Definition _value (self : Knob) (v : R) : outcome :=
  match angle_of_value self v with
  | Ok a => Returns (with__angle self a)
  | Raise e => Raises e self
  end.

(** [self.value = v]: a Kivy property stores the new value and calls its
    observers only when the value differs from the stored one. *)
Definition set_value (self : Knob) (v : R) : outcome :=
  if ne v (value self) then _value (with_value self v) v
  else Returns self.

(** [self.min = v], [self.max = v]: numeric properties without observers. *)
Definition set_min (self : Knob) (v : R) : outcome := Returns (with_min self v).
Definition set_max (self : Knob) (v : R) : outcome := Returns (with_max self v).

(** [self.step = v]: [BoundedNumericProperty(1, min=0)] raises [ValueError]
    for a value below its bound and stores any other. *)
Definition set_step (self : Knob) (v : R) : outcome :=
  if lt v 0 then Raises ValueError self else Returns (with_step self v).

(** [Knob(pos=.., size=.., min=.., max=.., step=.., value=..)]: the keyword
    arguments are stored by [Widget.__init__], before [__init__] binds
    [_value] to [value]; [_angle] and [_angle_step] keep their default 0. *)
Definition init (p s : R * R) (mn mx st v : R) : result Knob :=
  if lt st 0 then Raise ValueError
  else Ok (mkKnob p s mn mx v st 0 0).

(** Line 279: the step in degrees, as the exact quotient.  The double the
    source stores is [Double.angle_step]. *)
Definition angle_step (self : Knob) : result R :=
  n <- truediv (max self - min self + 1) (step self) ;;
  truediv 360 n.

(** Lines 281-284. *)
Definition quadrant (rx ry : R) : Z :=
  if ge ry 0 then (if ge rx 0 then 1 else 4)%Z
  else (if le rx 0 then 3 else 2)%Z.

(** The body of the [try]. *)
Definition try_atan (rx ry : R) (q : Z) : result R :=
  t <- truediv rx ry ;;
  let angle := atan t * 180 / 3.141592 in
  Ok (if (q =? 2)%Z || (q =? 3)%Z then 180 + angle
      else if (q =? 4)%Z then 360 + angle
      else angle).

(** Lines 281-293: the angle of the pointer, [except:] catching whatever
    the [try] raises. *)
Definition pointer_angle (rx ry : R) : R :=
  let q := quadrant rx ry in
  match try_atan rx ry q with
  | Ok angle => angle
  | Raise _ => if (q <=? 2)%Z then 90 else 270
  end.

(** Lines 296-297: [int(self._angle_step * round(float(angle) / self._angle_step))],
    on exact quotient and product.  The integer the source computes on
    doubles is [Double.quantize]. *)
Definition quantize (a_step angle : R) : result Z :=
  r <- truediv angle a_step ;;
  Ok (int (a_step * IZR (round r))).

(** Line 295: the condition under which the new angle is looked at. *)
Definition guard (self : Knob) (being_pressed : bool) (angle : R) : bool :=
  negb (being_pressed && gt (Rabs (angle - _angle self)) 90).

Definition update_angle (self : Knob) (touch : R * R) (being_pressed : bool)
  : outcome :=
  let '(posx, posy) := touch in
  let '(cx, cy) := center self in
  let rx := posx - cx in
  let ry := posy - cy in
  match angle_step self with
  | Raise e => Raises e self
  | Ok a =>
    let self := with__angle_step self a in
    let angle := pointer_angle rx ry in
    if guard self being_pressed angle then
      match quantize (_angle_step self) angle with
      | Raise e => Raises e self
      | Ok angle =>
        if ne (IZR angle) (_angle self)
        then set_value self (value_of_angle self (IZR angle))
        else Returns self
      end
    else Returns self
  end.

Definition on_touch_down (self : Knob) (touch : R * R) : outcome :=
  if collide_point self touch then update_angle self touch false
  else Returns self.

Definition on_touch_move (self : Knob) (touch : R * R) : outcome :=
  if collide_point self touch then update_angle self touch true
  else Returns self.

(** The notions below are not functions of the source; they name parts of
    [update_angle] so that statements about it can be read.

    What the handlers see of a touch: the angle of its position around the
    centre of the widget. *)
Definition touch_angle (self : Knob) (touch : R * R) : R :=
  pointer_angle (fst touch - fst (center self)) (snd touch - snd (center self)).

(** [_angle] is the image of [value]: the observer has run since [value],
    [min] or [max] last changed. *)
Definition in_sync (self : Knob) : Prop :=
  angle_of_value self (value self) = Ok (_angle self).

(** The number of stops on the dial, the divisor of line 279. *)
Definition stops (self : Knob) : R := (max self - min self + 1) / step self.

(** A widget of 100 by 100 at the origin, at rest on its minimum. *)
Definition at_rest (mn mx st : R) : Knob :=
  mkKnob (0, 0) (100, 100) mn mx mn st 0 0.

(** The integer [quantize] returns when its division is defined. *)
Definition snapped (a_step angle : R) : Z :=
  int (a_step * IZR (round (angle / a_step))).

(** The state after a committed angle [q] under the step [s]. *)
Definition committed (self : Knob) (s : R) (q : Z) : Knob :=
  mkKnob (pos self) (size self) (min self) (max self)
         (value_of_angle self (IZR q)) (step self) (IZR q) s.

(** The handler of an event, by its kind: a move or a press. *)
Definition dispatch (self : Knob) (moving : bool) (touch : R * R) : outcome :=
  if moving then on_touch_move self touch else on_touch_down self touch.

End Knob.

(** ** The canvas rules and the marker switch *)

Module Canvas.

Import Py Knob.

(** [l[i] = v] on a list; [None] stands for the [IndexError] of an index
    past the end. *)
Fixpoint setitem (l : list R) (i : nat) (v : R) : option (list R) :=
  match l, i with
  | nil, _ => None
  | _ :: t, O => Some (v :: t)
  | h :: t, S j =>
    match setitem t j v with
    | Some t' => Some (h :: t')
    | None => None
    end
  end.

(** The three list properties [_show_marker] writes to. *)
Record Colors : Type := mkColors {
  knobimg_bgcolor : list R;   (* ListProperty([0, 0, 0, 1]) *)
  marker_color : list R;      (* ListProperty([1, 1, 1, 1]) *)
  markeroff_color : list R    (* ListProperty([0, 0, 0, 0]) *)
}.

Inductive shown : Type :=
| Done (self : Colors)
| IndexError (self : Colors).

Definition colors_of (o : shown) : Colors :=
  match o with
  | Done c => c
  | IndexError c => c
  end.

(** One branch of [_show_marker]: the three assignments to index 3, in the
    order of the source. *)
Definition set_alpha (self : Colors) (a : R) : shown :=
  match setitem (knobimg_bgcolor self) 3 a with
  | None => IndexError self
  | Some c =>
    let self := mkColors c (marker_color self) (markeroff_color self) in
    match setitem (marker_color self) 3 a with
    | None => IndexError self
    | Some c =>
      let self := mkColors (knobimg_bgcolor self) c (markeroff_color self) in
      match setitem (markeroff_color self) 3 a with
      | None => IndexError self
      | Some c => Done (mkColors (knobimg_bgcolor self) (marker_color self) c)
      end
    end
  end.

(** [new] is [old] with [a] at index 3 and nothing else changed. *)
Definition alpha_set (old new : list R) (a : R) : Prop :=
  length new = length old /\
  nth 3 new 0 = a /\
  forall (j : nat) (d : R), j <> 3%nat -> nth j new d = nth j old d.

(** [_show_marker(self, o, value)]. *)
Definition _show_marker (self : Colors) (value : bool) : shown :=
  if value then set_alpha self 1 else set_alpha self 0.

(** The [angle_end] of the marker ellipse (lines 72-74 of the rule). *)
Definition marker_angle_end (self : Knob) (marker_startangle marker_ahead : R) : R :=
  if gt (_angle self) marker_startangle
  then _angle self + marker_ahead
  else marker_startangle.

(** The rectangle of the knob texture (lines 91-94 of the rule). *)
Definition knobimg_pos (self : Knob) (knobimg_size : R) : R * R :=
  (fst (pos self) + (fst (size self) * (1 - knobimg_size)) / 2,
   snd (pos self) + (snd (size self) * (1 - knobimg_size)) / 2).

Definition knobimg_rect (self : Knob) (knobimg_size : R) : R * R :=
  (fst (size self) * knobimg_size, snd (size self) * knobimg_size).

End Canvas.

(** ** A stream of touch events *)

Module Stream.

Import Knob.

(** The events of a gesture, delivered in order to the handler of their
    kind ([true] for a move, [false] for a press); an exception ends the
    stream. *)
Fixpoint run (self : Knob) (events : list (bool * (R * R))) : outcome :=
  match events with
  | nil => Returns self
  | (moving, touch) :: rest =>
    match dispatch self moving touch with
    | Returns self' => run self' rest
    | Raises e self' => Raises e self'
    end
  end.

(** A configuration on which the touch handling is defined, with the angle
    following the value. *)
Definition steady (self : Knob) : Prop :=
  min self < max self /\ 0 < step self /\ in_sync self.

(** Two states with the same geometry and configuration. *)
Definition same_setup (a b : Knob) : Prop :=
  pos a = pos b /\ size a = size b /\
  min a = min b /\ max a = max b /\ step a = step b.

End Stream.

(** ** The quantizer on binary64 numbers

    Python floats are IEEE 754 binary64 numbers with round-to-nearest-even
    arithmetic, which is what the primitive [float] is.  Numeric properties
    are taken as doubles; a property holding a Python integer below 2^53 is
    the same number. *)

Module Double.

Inductive exn : Set := ZeroDivisionError | OverflowError | ValueError.

Inductive result (A : Type) : Type :=
| Ok (a : A)
| Raise (e : exn).
Arguments Ok {A} a.
Arguments Raise {A} e.

Definition bind {A B : Type} (m : result A) (f : A -> result B) : result B :=
  match m with
  | Ok a => f a
  | Raise e => Raise e
  end.

(** [a / b] on floats: only a zero divisor raises; overflow gives an
    infinity. *)
Definition truediv (a b : float) : result float :=
  if (b =? 0)%float then Raise ZeroDivisionError else Ok (a / b)%float.

(** The integer part of the magnitude [m * 2^e] of a finite double. *)
Definition trunc_mag (m : positive) (e : Z) : Z :=
  match e with
  | Z0 => Zpos m
  | Zpos p => Zpos m * 2 ^ Zpos p
  | Zneg p => Zpos m / 2 ^ Zpos p
  end.

(** The integer nearest to the magnitude [m * 2^e], a tie going to the
    even one. *)
Definition round_mag (m : positive) (e : Z) : Z :=
  match e with
  | Zneg p =>
    let d := (2 ^ Zpos p)%Z in
    let q := (Zpos m / d)%Z in
    let r := (Zpos m mod d)%Z in
    match (2 * r ?= d)%Z with
    | Lt => q
    | Gt => (q + 1)%Z
    | Eq => if Z.even q then q else (q + 1)%Z
    end
  | _ => trunc_mag m e
  end.

(** [int(x)] on a float. *)
Definition int (x : float) : result Z :=
  match Prim2SF x with
  | S754_zero _ => Ok 0%Z
  | S754_finite s m e => Ok (cond_Zopp s (trunc_mag m e))
  | S754_infinity _ => Raise OverflowError
  | S754_nan => Raise ValueError
  end.

(** [round(x)] on a float. *)
Definition round (x : float) : result Z :=
  match Prim2SF x with
  | S754_zero _ => Ok 0%Z
  | S754_finite s m e => Ok (cond_Zopp s (round_mag m e))
  | S754_infinity _ => Raise OverflowError
  | S754_nan => Raise ValueError
  end.

(** The float a Python integer becomes when it is multiplied by a float:
    the nearest double, or [OverflowError] past the largest one. *)
Definition of_int (z : Z) : result float :=
  let f := SF2Prim (binary_normalize prec emax z 0 false) in
  if is_infinity f then Raise OverflowError else Ok f.

(** Line 279: [360. / ((self.max - self.min + 1) / self.step)]. *)
Definition angle_step (mn mx st : float) : result float :=
  bind (truediv (mx - mn + 1)%float st) (fun n => truediv 360%float n).

(** Lines 296-297: [int(self._angle_step * round(float(angle) / self._angle_step))]. *)
Definition quantize (a_step angle : float) : result Z :=
  bind (truediv angle a_step) (fun r =>
  bind (round r) (fun m =>
  bind (of_int m) (fun f =>
  int (a_step * f)%float))).



End Double.

Import Knob Canvas Stream.

(** ** Facts about the Python primitives *)

Section Primitives.

Lemma truediv_ok (a b : R) : b <> 0 -> Py.truediv a b = Py.Ok (a / b).
Proof.
  intros Hb. unfold Py.truediv.
  destruct (Req_dec_T b 0) as [E | _]; [contradiction | reflexivity].
Qed.

Lemma truediv_zero (a : R) : Py.truediv a 0 = Py.Raise Py.ZeroDivisionError.
Proof.
  unfold Py.truediv.
  destruct (Req_dec_T 0 0) as [_ | N]; [reflexivity | now elim N].
Qed.

Lemma truediv_inv (a b c : R) : Py.truediv a b = Py.Ok c -> b <> 0 /\ c = a / b.
Proof.
  unfold Py.truediv. destruct (Req_dec_T b 0); intros H; inversion H; auto.
Qed.

Lemma ge_true (a b : R) : b <= a -> Py.ge a b = true.
Proof. intros H. unfold Py.ge. destruct (Rle_dec b a); [reflexivity | contradiction]. Qed.

Lemma ge_false (a b : R) : a < b -> Py.ge a b = false.
Proof. intros H. unfold Py.ge. destruct (Rle_dec b a); [lra | reflexivity]. Qed.

Lemma le_true (a b : R) : a <= b -> Py.le a b = true.
Proof. intros H. unfold Py.le. destruct (Rle_dec a b); [reflexivity | contradiction]. Qed.

Lemma le_false (a b : R) : b < a -> Py.le a b = false.
Proof. intros H. unfold Py.le. destruct (Rle_dec a b); [lra | reflexivity]. Qed.

Lemma gt_true (a b : R) : b < a -> Py.gt a b = true.
Proof. intros H. unfold Py.gt. destruct (Rlt_dec b a); [reflexivity | contradiction]. Qed.

Lemma gt_false (a b : R) : a <= b -> Py.gt a b = false.
Proof. intros H. unfold Py.gt. destruct (Rlt_dec b a); [lra | reflexivity]. Qed.

Lemma lt_true (a b : R) : a < b -> Py.lt a b = true.
Proof. intros H. unfold Py.lt. destruct (Rlt_dec a b); [reflexivity | contradiction]. Qed.

Lemma lt_false (a b : R) : b <= a -> Py.lt a b = false.
Proof. intros H. unfold Py.lt. destruct (Rlt_dec a b); [lra | reflexivity]. Qed.

Lemma ne_true (a b : R) : a <> b -> Py.ne a b = true.
Proof. intros H. unfold Py.ne. destruct (Req_dec_T a b); [contradiction | reflexivity]. Qed.

Lemma ne_false (a b : R) : a = b -> Py.ne a b = false.
Proof. intros H. unfold Py.ne. destruct (Req_dec_T a b); [reflexivity | contradiction]. Qed.

Lemma Rabs_le_bounds (a b : R) : Rabs a <= b -> - b <= a <= b.
Proof. unfold Rabs. destruct (Rcase_abs a); lra. Qed.

(** [round] returns an integer within one half of its argument. *)
Lemma round_near (x : R) : Rabs (IZR (Py.round x) - x) <= 1 / 2.
Proof.
  unfold Py.round.
  pose proof (Zfloor_bound x) as [Hlo Hhi].
  destruct (Rlt_dec (x - IZR (Zfloor x)) (1 / 2)) as [Hd | Hd].
  - apply Rabs_le. lra.
  - assert (Hup : Rabs (IZR (Zfloor x + 1) - x) <= 1 / 2)
      by (rewrite plus_IZR; apply Rabs_le; lra).
    destruct (Rlt_dec (1 / 2) (x - IZR (Zfloor x))) as [Hu | Hu]; [exact Hup |].
    destruct (Z.even (Zfloor x)); [apply Rabs_le; lra | exact Hup].
Qed.

(** Away from a tie the result is the integer of the open unit interval
    around the argument. *)
Lemma round_eq (x : R) (n : Z) :
  IZR n - 1 / 2 < x < IZR n + 1 / 2 -> Py.round x = n.
Proof.
  intros [Hlo Hhi].
  pose proof (round_near x) as Hn. apply Rabs_le_bounds in Hn.
  assert (Hlt : (Py.round x < n + 1)%Z) by (apply lt_IZR; rewrite plus_IZR; lra).
  assert (Hgt : (n < Py.round x + 1)%Z) by (apply lt_IZR; rewrite plus_IZR; lra).
  lia.
Qed.

Lemma round_mono (x y : R) : x <= y -> (Py.round x <= Py.round y)%Z.
Proof.
  intros Hxy.
  destruct (Z_le_gt_dec (Py.round x) (Py.round y)) as [H | H]; [exact H | exfalso].
  assert (H1 : IZR (Py.round y) + 1 <= IZR (Py.round x))
    by (rewrite <- plus_IZR; apply IZR_le; lia).
  pose proof (round_near x) as Hx. apply Rabs_le_bounds in Hx.
  pose proof (round_near y) as Hy. apply Rabs_le_bounds in Hy.
  assert (E : x = y) by lra. subst y. lia.
Qed.

Lemma round_IZR (n : Z) : Py.round (IZR n) = n.
Proof. apply round_eq. lra. Qed.

(** No integer is nearer to [x] than [round x]. *)
Lemma round_nearest (x : R) (j : Z) :
  Rabs (IZR (Py.round x) - x) <= Rabs (IZR j - x).
Proof.
  pose proof (round_near x) as Hn.
  destruct (Z.eq_dec j (Py.round x)) as [-> | Hne]; [lra |].
  apply Rabs_le_bounds in Hn.
  destruct (Z_lt_le_dec j (Py.round x)) as [Hlt | Hge].
  - assert (H1 : IZR j + 1 <= IZR (Py.round x))
      by (rewrite <- plus_IZR; apply IZR_le; lia).
    rewrite (Rabs_left1 (IZR j - x)) by lra.
    apply Rabs_le. lra.
  - assert (H1 : IZR (Py.round x) + 1 <= IZR j)
      by (rewrite <- plus_IZR; apply IZR_le; lia).
    rewrite (Rabs_right (IZR j - x)) by lra.
    apply Rabs_le. lra.
Qed.

Lemma int_nonneg (x : R) : 0 <= x -> Py.int x = Zfloor x.
Proof. intros H. unfold Py.int. destruct (Rle_dec 0 x); [reflexivity | contradiction]. Qed.

Lemma int_IZR (n : Z) : Py.int (IZR n) = n.
Proof.
  unfold Py.int. destruct (Rle_dec 0 (IZR n)).
  - apply ZfloorZ.
  - apply Zceil_eq. lra.
Qed.

(** [int] drops the fraction and moves toward zero. *)
Lemma int_trunc (x : R) :
  Rabs (x - IZR (Py.int x)) < 1 /\
  (0 <= x -> 0 <= IZR (Py.int x) <= x) /\
  (x <= 0 -> x <= IZR (Py.int x) <= 0).
Proof.
  unfold Py.int.
  pose proof (Zfloor_bound x) as Hf. pose proof (Zceil_bound x) as Hc.
  destruct (Rle_dec 0 x) as [Hx | Hx].
  - assert (H0 : (0 <= Zfloor x)%Z) by (apply Zfloor_lub; exact Hx).
    apply IZR_le in H0.
    split; [apply Rabs_def1; lra | split; intros; lra].
  - assert (H0 : (Zceil x <= 0)%Z).
    { apply Z.lt_succ_r, lt_IZR. rewrite succ_IZR. lra. }
    apply IZR_le in H0.
    split; [apply Rabs_def1; lra | split; intros; lra].
Qed.

End Primitives.

(** ** The angle of the pointer *)

Section PointerAngle.

(** The literal the source divides by is below the number it stands for. *)
Lemma PI_above_literal : 3.141592 < PI.
Proof.
  pose proof (PI_2_3_7_ineq 2) as [H _].
  cbn [Nat.mul Nat.add] in H.
  unfold sum_f_R0, tg_alt, PI_2_3_7_tg, Ratan_seq in H.
  simpl in H. lra.
Qed.

Lemma atan_nonneg (t : R) : 0 <= t -> 0 <= atan t.
Proof.
  intros [Ht | <-].
  - left. rewrite <- atan_0. now apply atan_increasing.
  - rewrite atan_0. lra.
Qed.

Lemma atan_neg (t : R) : t < 0 -> atan t < 0.
Proof. intros Ht. rewrite <- atan_0. now apply atan_increasing. Qed.

Lemma div_sign (rx ry : R) :
  ry <> 0 ->
  (0 < ry -> 0 <= rx -> 0 <= rx / ry) /\
  (0 < ry -> rx < 0 -> rx / ry < 0) /\
  (ry < 0 -> rx <= 0 -> 0 <= rx / ry) /\
  (ry < 0 -> 0 < rx -> rx / ry < 0).
Proof.
  intros Hry. unfold Rdiv.
  repeat split; intros H1 H2.
  - pose proof (Rinv_0_lt_compat ry H1). nra.
  - pose proof (Rinv_0_lt_compat ry H1). nra.
  - pose proof (Rinv_lt_0_compat ry H1). nra.
  - pose proof (Rinv_lt_0_compat ry H1). nra.
Qed.

Lemma quadrant_cases (rx ry : R) :
  (0 <= ry /\ 0 <= rx /\ quadrant rx ry = 1%Z) \/
  (0 <= ry /\ rx < 0 /\ quadrant rx ry = 4%Z) \/
  (ry < 0 /\ rx <= 0 /\ quadrant rx ry = 3%Z) \/
  (ry < 0 /\ 0 < rx /\ quadrant rx ry = 2%Z).
Proof.
  unfold quadrant, Py.ge, Py.le.
  destruct (Rle_dec 0 ry); [destruct (Rle_dec 0 rx) | destruct (Rle_dec rx 0)].
  - left. auto.
  - right; left. repeat split; auto; lra.
  - right; right; left. repeat split; auto; lra.
  - right; right; right. repeat split; auto; lra.
Qed.

(** With [ry = 0] the division in the [try] raises. *)
Lemma try_atan_zero (rx : R) (q : Z) :
  try_atan rx 0 q = Py.Raise Py.ZeroDivisionError.
Proof. unfold try_atan. rewrite truediv_zero. reflexivity. Qed.

Lemma try_atan_nonzero (rx ry : R) (q : Z) :
  ry <> 0 ->
  try_atan rx ry q =
  Py.Ok (if (q =? 2)%Z || (q =? 3)%Z then 180 + atan (rx / ry) * 180 / 3.141592
         else if (q =? 4)%Z then 360 + atan (rx / ry) * 180 / 3.141592
         else atan (rx / ry) * 180 / 3.141592).
Proof. intros H. unfold try_atan. rewrite truediv_ok by exact H. reflexivity. Qed.

Lemma pointer_angle_on_axis (rx : R) :
  pointer_angle rx 0 = if Py.ge rx 0 then 90 else 270.
Proof.
  unfold pointer_angle. rewrite try_atan_zero.
  unfold quadrant. rewrite (ge_true 0 0) by lra.
  destruct (Py.ge rx 0); reflexivity.
Qed.

Lemma pointer_angle_off_axis (rx ry : R) :
  ry <> 0 ->
  pointer_angle rx ry =
  atan (rx / ry) * 180 / 3.141592
  + (if Py.lt ry 0 then 180 else if Py.lt rx 0 then 360 else 0).
Proof.
  intros Hry. unfold pointer_angle. rewrite try_atan_nonzero by exact Hry.
  destruct (quadrant_cases rx ry) as [H | [H | [H | H]]];
    destruct H as (H1 & H2 & ->); cbn [Z.eqb Pos.eqb orb].
  - rewrite lt_false, lt_false by lra. lra.
  - rewrite lt_false by lra. rewrite lt_true by lra. lra.
  - rewrite lt_true by lra. lra.
  - rewrite lt_true by lra. lra.
Qed.

Lemma pointer_angle_range (rx ry : R) : 0 <= pointer_angle rx ry < 360.
Proof.
  destruct (Req_dec_T ry 0) as [-> | Hry].
  - rewrite pointer_angle_on_axis. destruct (Py.ge rx 0); lra.
  - rewrite pointer_angle_off_axis by exact Hry.
    pose proof (atan_bound (rx / ry)) as [Hlo Hhi].
    pose proof PI_4. pose proof PI_RGT_0.
    destruct (div_sign rx ry Hry) as (S1 & S2 & S3 & S4).
    destruct (Rlt_dec ry 0) as [Hneg | Hpos].
    + rewrite lt_true by exact Hneg.
      destruct (Rle_dec rx 0) as [Hx | Hx].
      * pose proof (atan_nonneg _ (S3 Hneg Hx)). lra.
      * assert (0 < rx) as Hx' by lra.
        pose proof (atan_neg _ (S4 Hneg Hx')). lra.
    + rewrite lt_false by lra.
      assert (0 < ry) as Hpos' by lra.
      destruct (Rlt_dec rx 0) as [Hx | Hx].
      * rewrite lt_true by exact Hx.
        pose proof (atan_neg _ (S2 Hpos' Hx)). lra.
      * rewrite lt_false by lra.
        assert (0 <= rx) as Hx' by lra.
        pose proof (atan_nonneg _ (S1 Hpos' Hx')). lra.
Qed.

End PointerAngle.

(** ** One call of [update_angle] *)

Section UpdateAngle.

Variable k : Knob.

Lemma stops_nonzero : step k <> 0 -> max k - min k + 1 <> 0 -> stops k <> 0.
Proof.
  intros Hs Hr. unfold stops, Rdiv.
  apply Rmult_integral_contrapositive_currified; [exact Hr |].
  now apply Rinv_neq_0_compat.
Qed.

Lemma angle_step_ok :
  step k <> 0 -> max k - min k + 1 <> 0 ->
  angle_step k = Py.Ok (360 / stops k) /\ 360 / stops k <> 0.
Proof.
  intros Hs Hr. pose proof (stops_nonzero Hs Hr) as Hn.
  split.
  - unfold angle_step. rewrite (truediv_ok _ _ Hs). cbn [Py.bind].
    fold (stops k). now rewrite truediv_ok.
  - unfold Rdiv. apply Rmult_integral_contrapositive_currified; [lra |].
    now apply Rinv_neq_0_compat.
Qed.

Lemma angle_step_raises : step k = 0 -> angle_step k = Py.Raise Py.ZeroDivisionError.
Proof. intros E. unfold angle_step. rewrite E, truediv_zero. reflexivity. Qed.

Lemma angle_step_positive :
  0 < step k -> 0 < max k - min k + 1 -> 0 < stops k /\ 0 < 360 / stops k.
Proof.
  intros Hs Hr.
  assert (H : 0 < stops k) by (unfold stops; now apply Rdiv_lt_0_compat).
  split; [exact H | apply Rdiv_lt_0_compat; lra].
Qed.

Lemma quantize_ok (s a : R) :
  s <> 0 -> quantize s a = Py.Ok (snapped s a).
Proof. intros Hs. unfold quantize. rewrite truediv_ok by exact Hs. reflexivity. Qed.

(** The candidate of a touch: its angle snapped to the step [s]. *)
Lemma update_angle_eq (touch : R * R) (being_pressed : bool) (s : R) :
  angle_step k = Py.Ok s -> s <> 0 ->
  update_angle k touch being_pressed =
  if guard k being_pressed (touch_angle k touch) then
    if Py.ne (IZR (snapped s (touch_angle k touch))) (_angle k)
    then set_value (with__angle_step k s)
           (value_of_angle k (IZR (snapped s (touch_angle k touch))))
    else Returns (with__angle_step k s)
  else Returns (with__angle_step k s).
Proof.
  intros Hs Hn. unfold update_angle, touch_angle.
  destruct touch as [posx posy]. destruct (center k) as [cx cy] eqn:Hc.
  rewrite Hs. cbn [fst snd _angle_step with__angle_step].
  change (guard (with__angle_step k s) being_pressed) with (guard k being_pressed).
  destruct (guard k being_pressed (pointer_angle (posx - cx) (posy - cy))); [| reflexivity].
  rewrite quantize_ok by exact Hn. reflexivity.
Qed.

Lemma update_angle_raises (touch : R * R) (being_pressed : bool) :
  step k = 0 ->
  update_angle k touch being_pressed = Raises Py.ZeroDivisionError k.
Proof.
  intros E. unfold update_angle. destruct touch as [posx posy].
  destruct (center k) as [cx cy]. rewrite (angle_step_raises E). reflexivity.
Qed.


Lemma guard_move_far (a : R) : Rabs (a - _angle k) > 90 -> guard k true a = false.
Proof. intros H. unfold guard. rewrite gt_true by lra. reflexivity. Qed.

Lemma guard_move_near (a : R) : Rabs (a - _angle k) <= 90 -> guard k true a = true.
Proof. intros H. unfold guard. rewrite gt_false by lra. reflexivity. Qed.

Lemma guard_true_inv (being_pressed : bool) (a : R) :
  guard k being_pressed a = true ->
  being_pressed = false \/ Rabs (a - _angle k) <= 90.
Proof.
  unfold guard, Py.gt. destruct being_pressed; [| now left].
  destruct (Rlt_dec 90 (Rabs (a - _angle k))); [discriminate | right; lra].
Qed.

End UpdateAngle.

(** ** Storing a value *)

Section SetValue.

Variable k : Knob.

Lemma value_angle_value (v : R) :
  max k <> min k ->
  value_of_angle k ((v - min k) * 360 / (- min k + max k)) = v.
Proof. intros H. unfold value_of_angle. field. lra. Qed.

Lemma angle_value_angle (a : R) :
  max k <> min k ->
  (value_of_angle k a - min k) * 360 / (- min k + max k) = a.
Proof. intros H. unfold value_of_angle. field. lra. Qed.

Lemma angle_of_value_ok (v : R) :
  max k <> min k ->
  angle_of_value k v = Py.Ok ((v - min k) * 360 / (- min k + max k)).
Proof. intros H. unfold angle_of_value. apply truediv_ok. lra. Qed.

Lemma angle_of_value_raises (v : R) :
  max k = min k -> angle_of_value k v = Py.Raise Py.ZeroDivisionError.
Proof.
  intros H. unfold angle_of_value.
  replace (- min k + max k) with 0 by lra. apply truediv_zero.
Qed.

Lemma in_sync_angle :
  max k <> min k -> in_sync k ->
  _angle k = (value k - min k) * 360 / (- min k + max k).
Proof.
  intros H S. unfold in_sync in S. rewrite angle_of_value_ok in S by exact H.
  now inversion S.
Qed.

Lemma set_value_same (v : R) : v = value k -> set_value k v = Returns k.
Proof. intros E. unfold set_value. now rewrite ne_false. Qed.

Lemma set_value_new (v : R) :
  v <> value k -> max k <> min k ->
  set_value k v =
  Returns (with__angle (with_value k v) ((v - min k) * 360 / (- min k + max k))).
Proof.
  intros Hv H. unfold set_value, _value. rewrite ne_true by exact Hv.
  change (angle_of_value (with_value k v) v) with (angle_of_value k v).
  now rewrite angle_of_value_ok.
Qed.

Lemma set_value_degenerate (v : R) :
  v <> value k -> max k = min k ->
  set_value k v = Raises Py.ZeroDivisionError (with_value k v).
Proof.
  intros Hv H. unfold set_value, _value. rewrite ne_true by exact Hv.
  change (angle_of_value (with_value k v) v) with (angle_of_value k v).
  now rewrite angle_of_value_raises.
Qed.

End SetValue.

(** ** The three ways through [update_angle] *)

Section Paths.

Variables (k : Knob) (touch : R * R) (being_pressed : bool) (s : R).
Hypothesis Hstep : angle_step k = Py.Ok s.
Hypothesis Hs : s <> 0.

(** The guard fails: only the step in degrees is stored. *)
Lemma path_rejected :
  guard k being_pressed (touch_angle k touch) = false ->
  update_angle k touch being_pressed = Returns (with__angle_step k s).
Proof. intros G. rewrite (update_angle_eq k touch being_pressed s Hstep Hs), G. reflexivity. Qed.

(** The guard holds and the snapped angle is the current one: again only the
    step in degrees is stored. *)
Lemma path_same_angle :
  guard k being_pressed (touch_angle k touch) = true ->
  IZR (snapped s (touch_angle k touch)) = _angle k ->
  update_angle k touch being_pressed = Returns (with__angle_step k s).
Proof.
  intros G E. rewrite (update_angle_eq k touch being_pressed s Hstep Hs), G.
  now rewrite ne_false.
Qed.

(** The guard holds on a widget whose angle follows its value: the snapped
    angle and its value are the new state. *)
Lemma path_accepted :
  max k <> min k -> in_sync k ->
  guard k being_pressed (touch_angle k touch) = true ->
  update_angle k touch being_pressed =
  Returns (committed k s (snapped s (touch_angle k touch))).
Proof.
  intros Hr Sy G. rewrite (update_angle_eq k touch being_pressed s Hstep Hs), G.
  pose proof (in_sync_angle k Hr Sy) as Ea.
  set (q := snapped s (touch_angle k touch)).
  destruct (Req_dec_T (IZR q) (_angle k)) as [E | N].
  - rewrite ne_false by exact E. f_equal.
    unfold committed, with__angle_step. rewrite E.
    assert (Ev : value_of_angle k (_angle k) = value k)
      by (rewrite Ea; now apply value_angle_value).
    rewrite Ev. destruct k; reflexivity.
  - rewrite ne_true by exact N.
    assert (Nv : value_of_angle k (IZR q) <> value (with__angle_step k s)).
    { cbn [value with__angle_step]. intros Ev. apply N.
      rewrite Ea, <- Ev. symmetry. now apply angle_value_angle. }
    rewrite set_value_new by (cbn [max min with__angle_step]; assumption).
    f_equal. unfold committed, with__angle, with_value, with__angle_step.
    cbn [pos size min max value step _angle _angle_step].
    f_equal. now apply angle_value_angle.
Qed.


End Paths.

(** ** Evaluating the handlers on the widget at rest *)

Section AtRest.

Lemma collide_point_inside (k : Knob) (p : R * R) :
  fst (pos k) <= fst p <= fst (pos k) + fst (size k) ->
  snd (pos k) <= snd p <= snd (pos k) + snd (size k) ->
  collide_point k p = true.
Proof.
  intros [H1 H2] [H3 H4]. unfold collide_point.
  now rewrite !le_true by assumption.
Qed.

Lemma collide_at_rest (mn mx st x y : R) :
  0 <= x <= 100 -> 0 <= y <= 100 ->
  collide_point (at_rest mn mx st) (x, y) = true.
Proof. intros Hx Hy. apply collide_point_inside; cbn; lra. Qed.

Lemma touch_angle_at_rest (mn mx st x y : R) :
  touch_angle (at_rest mn mx st) (x, y) = pointer_angle (x - 50) (y - 50).
Proof. unfold touch_angle. cbn. f_equal; lra. Qed.

(** A touch to the right of the centre, level with it. *)
Lemma touch_angle_right (mn mx st : R) :
  touch_angle (at_rest mn mx st) (60, 50) = 90.
Proof.
  rewrite touch_angle_at_rest.
  replace (50 - 50) with 0 by lra.
  rewrite pointer_angle_on_axis, ge_true by lra. reflexivity.
Qed.

(** A touch to the left of the centre, level with it. *)
Lemma touch_angle_left (mn mx st : R) :
  touch_angle (at_rest mn mx st) (40, 50) = 270.
Proof.
  rewrite touch_angle_at_rest.
  replace (50 - 50) with 0 by lra.
  rewrite pointer_angle_on_axis, ge_false by lra. reflexivity.
Qed.

(** A touch straight above the centre. *)
Lemma touch_angle_up (mn mx st : R) :
  touch_angle (at_rest mn mx st) (50, 60) = 0.
Proof.
  rewrite touch_angle_at_rest, pointer_angle_off_axis by lra.
  replace ((50 - 50) / (60 - 50)) with 0 by lra.
  rewrite atan_0, !lt_false by lra. lra.
Qed.



Lemma in_sync_at_rest (mn mx st : R) : mx <> mn -> in_sync (at_rest mn mx st).
Proof.
  intros H. unfold in_sync. rewrite angle_of_value_ok by exact H.
  cbn. f_equal. unfold Rdiv. lra.
Qed.

(** The snapped angle, from the multiple [m] that is nearest and the whole
    degrees [n] below it. *)
Lemma snapped_eval (s a : R) (m n : Z) :
  IZR m - 1 / 2 < a / s < IZR m + 1 / 2 ->
  0 <= s * IZR m ->
  IZR n <= s * IZR m < IZR n + 1 ->
  snapped s a = n.
Proof.
  intros Hm H0 Hn. unfold snapped.
  rewrite (round_eq _ m Hm), int_nonneg by exact H0.
  now apply Zfloor_eq.
Qed.

End AtRest.

(** ** The drag guard *)

Section DragGuard.

Lemma stops_at_rest (mn mx st : R) : stops (at_rest mn mx st) = (mx - mn + 1) / st.
Proof. reflexivity. Qed.

Lemma move_inside (k : Knob) (touch : R * R) :
  collide_point k touch = true -> on_touch_move k touch = update_angle k touch true.
Proof. intros H. unfold on_touch_move. now rewrite H. Qed.

Lemma press_inside (k : Knob) (touch : R * R) :
  collide_point k touch = true -> on_touch_down k touch = update_angle k touch false.
Proof. intros H. unfold on_touch_down. now rewrite H. Qed.

(** The widget on [0, 2] with unit step has three stops, 120 degrees apart. *)
Lemma angle_step_0_2_1 : angle_step (at_rest 0 2 1) = Py.Ok 120.
Proof.
  destruct (angle_step_ok (at_rest 0 2 1)) as [E _]; cbn; try lra.
  rewrite E, stops_at_rest. f_equal. field.
Qed.

(** C1, the claim refuted.  On the widget with min 0, max 2 and step 1, at
    angle 0, a move to the right of the centre resolves to the raw angle 90.
    Its quantized candidate is 120, which is 120 degrees away from the
    current angle, and the move is accepted all the same: the angle becomes
    120 and the value 2/3. *)
Lemma drag_accepts_candidate_beyond_90 :
  collide_point (at_rest 0 2 1) (60, 50) = true /\
  quantize 120 (touch_angle (at_rest 0 2 1) (60, 50)) = Py.Ok 120%Z /\
  Rabs (IZR 120 - _angle (at_rest 0 2 1)) > 90 /\
  on_touch_move (at_rest 0 2 1) (60, 50) =
  Returns (mkKnob (0, 0) (100, 100) 0 2 (2 / 3) 1 120 120).
Proof.
  assert (Hq : snapped 120 (touch_angle (at_rest 0 2 1) (60, 50)) = 120%Z).
  { rewrite touch_angle_right. apply (snapped_eval 120 90 1 120); lra. }
  assert (Hc : collide_point (at_rest 0 2 1) (60, 50) = true)
    by (apply collide_at_rest; lra).
  split; [exact Hc |]. split; [| split].
  - rewrite quantize_ok by lra. now rewrite Hq.
  - cbn. rewrite Rabs_right; lra.
  - rewrite (move_inside _ _ Hc).
    rewrite (path_accepted (at_rest 0 2 1) (60, 50) true 120 angle_step_0_2_1).
    + rewrite Hq. unfold committed, value_of_angle. cbn.
      f_equal. f_equal; lra.
    + lra.
    + cbn; lra.
    + apply in_sync_at_rest; lra.
    + apply guard_move_near. rewrite touch_angle_right. cbn.
      rewrite Rabs_right; lra.
Qed.

(** C1, as the code has it.  On a move inside the control the guard compares
    the raw angle of the pointer, before it is quantized, with the current
    angle.  When they differ by more than 90 the event is discarded: only
    the step in degrees is stored, angle and value stay.  So a move changes
    angle or value only if the raw angle is within 90 of the current one. *)
Theorem drag_guard_on_raw_angle (k : Knob) (touch : R * R) :
  collide_point k touch = true ->
  step k <> 0 -> max k - min k + 1 <> 0 ->
  (Rabs (touch_angle k touch - _angle k) > 90 ->
   on_touch_move k touch = Returns (with__angle_step k (360 / stops k))) /\
  (_angle (state_of (on_touch_move k touch)) <> _angle k \/
   value (state_of (on_touch_move k touch)) <> value k ->
   Rabs (touch_angle k touch - _angle k) <= 90).
Proof.
  intros Hc Hst Hr.
  destruct (angle_step_ok k Hst Hr) as [Hs Hn].
  rewrite (move_inside _ _ Hc).
  assert (Hfar : Rabs (touch_angle k touch - _angle k) > 90 ->
                 update_angle k touch true = Returns (with__angle_step k (360 / stops k))).
  { intros Hf. apply path_rejected; auto. now apply guard_move_far. }
  split; [exact Hfar |].
  intros Hch.
  destruct (Rle_dec (Rabs (touch_angle k touch - _angle k)) 90) as [H | H]; [exact H |].
  exfalso. rewrite Hfar in Hch by lra. cbn in Hch. tauto.
Qed.

Lemma drag_guard_on_raw_angle_witness :
  Rabs (touch_angle (at_rest 0 100 1) (40, 50) - _angle (at_rest 0 100 1)) > 90 /\
  on_touch_move (at_rest 0 100 1) (40, 50) =
  Returns (with__angle_step (at_rest 0 100 1) (360 / stops (at_rest 0 100 1))).
Proof.
  assert (Hfar : Rabs (touch_angle (at_rest 0 100 1) (40, 50)
                       - _angle (at_rest 0 100 1)) > 90).
  { rewrite touch_angle_left. cbn. rewrite Rabs_right; lra. }
  split; [exact Hfar |].
  apply (drag_guard_on_raw_angle (at_rest 0 100 1) (40, 50)).
  - apply collide_at_rest; lra.
  - cbn; lra.
  - cbn; lra.
  - exact Hfar.
Defined.

End DragGuard.

(** ** Press *)

Section Press.





End Press.

(** ** The step in degrees is stored by every touch *)

Section AngleStepFrame.



End AngleStepFrame.

(** ** The range of value and angle *)

Section Range.

(** With [n] stops of [s] degrees making the full turn, and [n] not rounding
    upward, an angle of [[0, 360)] snaps into [[0, 360]]. *)
Lemma snapped_range (s n a : R) :
  0 < n -> s = 360 / n -> IZR (Py.round n) <= n ->
  0 <= a < 360 ->
  0 <= IZR (snapped s a) <= 360.
Proof.
  intros Hn Es Hround [Ha0 Ha1].
  assert (Hs : 0 < s) by (subst s; apply Rdiv_lt_0_compat; lra).
  assert (Esn : s * n = 360) by (subst s; field; lra).
  assert (Er : a / s = a * n / 360) by (subst s; field; lra).
  assert (Hr0 : 0 <= a / s) by (rewrite Er; nra).
  assert (Hr1 : a / s <= n) by (rewrite Er; nra).
  pose proof (round_mono _ _ Hr0) as M0. rewrite (round_IZR 0) in M0.
  pose proof (round_mono _ _ Hr1) as M1.
  apply IZR_le in M0. apply IZR_le in M1.
  assert (Hx0 : 0 <= s * IZR (Py.round (a / s))) by (apply Rmult_le_pos; lra).
  assert (Hx1 : s * IZR (Py.round (a / s)) <= 360).
  { rewrite <- Esn. apply Rmult_le_compat_l; lra. }
  unfold snapped.
  destruct (int_trunc (s * IZR (Py.round (a / s)))) as (_ & Hpos & _).
  specialize (Hpos Hx0). lra.
Qed.

Lemma value_of_angle_range (k : Knob) (a : R) :
  min k < max k -> 0 <= a <= 360 -> min k <= value_of_angle k a <= max k.
Proof.
  intros Hr [H0 H1]. unfold value_of_angle.
  assert (E : (- min k + max k) * a / 360 = (max k - min k) * (a / 360)) by (unfold Rdiv; ring).
  rewrite E. assert (0 <= a / 360 <= 1) by lra. nra.
Qed.

Lemma touch_angle_range (k : Knob) (touch : R * R) : 0 <= touch_angle k touch < 360.
Proof. apply pointer_angle_range. Qed.





End Range.

(** ** The resolver *)

Section Resolver.

(** C4, the claim refuted.  At [rx = ry = 1] the resolver returns
    [atan 1 * 180 / 3.141592], which is above 45, the value of
    [atan 1 * 180 / PI]: the source divides by the literal 3.141592. *)
Lemma pointer_angle_not_over_PI :
  pointer_angle 1 1 <> atan (1 / 1) * 180 / PI.
Proof.
  rewrite pointer_angle_off_axis by lra.
  rewrite !lt_false by lra.
  replace (1 / 1) with 1 by lra.
  rewrite atan_1.
  pose proof PI_above_literal as Hlit. pose proof PI_RGT_0 as Hpos.
  replace (PI / 4 * 180 / PI) with 45 by (field; lra).
  lra.
Qed.

(** C4, as the code has it.  Off the horizontal through the centre the raw
    angle is [atan (rx / ry) * 180 / 3.141592], plus 180 in quadrants 2 and
    3 (where [ry < 0]), plus 360 in quadrant 4 (where [ry >= 0] and
    [rx < 0]); it lies in [[0, 360)]. *)
Theorem pointer_angle_formula (rx ry : R) :
  ry <> 0 ->
  pointer_angle rx ry =
  atan (rx / ry) * 180 / 3.141592
  + (if (quadrant rx ry =? 2)%Z || (quadrant rx ry =? 3)%Z then 180
     else if (quadrant rx ry =? 4)%Z then 360 else 0) /\
  ((quadrant rx ry = 2%Z \/ quadrant rx ry = 3%Z) <-> ry < 0) /\
  (quadrant rx ry = 4%Z <-> 0 <= ry /\ rx < 0) /\
  0 <= pointer_angle rx ry < 360.
Proof.
  intros Hry. split; [| split; [| split]].
  - rewrite pointer_angle_off_axis by exact Hry.
    destruct (quadrant_cases rx ry) as [H | [H | [H | H]]];
      destruct H as (H1 & H2 & ->); cbn [Z.eqb Pos.eqb orb].
    + now rewrite !lt_false by lra.
    + rewrite lt_false by lra. now rewrite lt_true by lra.
    + now rewrite lt_true by lra.
    + now rewrite lt_true by lra.
  - destruct (quadrant_cases rx ry) as [H | [H | [H | H]]];
      destruct H as (H1 & H2 & ->); split; intros H; try lra;
      try tauto; destruct H; discriminate.
  - destruct (quadrant_cases rx ry) as [H | [H | [H | H]]];
      destruct H as (H1 & H2 & ->); split; intros H; try lra;
      try tauto; try discriminate.
  - apply pointer_angle_range.
Qed.

Lemma pointer_angle_formula_witness :
  pointer_angle (- 1) 1 = atan (- 1 / 1) * 180 / 3.141592 + 360 /\
  0 <= pointer_angle (- 1) 1 < 360.
Proof.
  assert (Hry : 1 <> 0) by lra.
  destruct (pointer_angle_formula (- 1) 1 Hry) as (E & _ & _ & Hrange).
  split; [| exact Hrange].
  rewrite E. unfold quadrant.
  rewrite ge_true, ge_false by lra. reflexivity.
Defined.

(** C9, the claim refuted.  With [ry = 0] the body of the [try] divides by
    zero and raises; the angle comes from the handler. *)
Lemma vertical_division_raises :
  try_atan 10 0 (quadrant 10 0) = Py.Raise Py.ZeroDivisionError /\
  pointer_angle 10 0 = 90.
Proof.
  split.
  - apply try_atan_zero.
  - rewrite pointer_angle_on_axis, ge_true by lra. reflexivity.
Qed.

(** C9, as the code has it.  With [ry = 0] the division in the [try] raises
    [ZeroDivisionError] and the bare [except:] turns it into 90 when the
    quadrant is at most 2 and into 270 otherwise.  The quadrant is then 1
    for [rx >= 0] and 4 for [rx < 0]. *)
Theorem vertical_handled_by_except (rx : R) :
  try_atan rx 0 (quadrant rx 0) = Py.Raise Py.ZeroDivisionError /\
  pointer_angle rx 0 = (if (quadrant rx 0 <=? 2)%Z then 90 else 270) /\
  quadrant rx 0 = (if Py.ge rx 0 then 1 else 4)%Z /\
  pointer_angle rx 0 = (if Py.ge rx 0 then 90 else 270).
Proof.
  split; [apply try_atan_zero |]. split; [| split].
  - unfold pointer_angle. now rewrite try_atan_zero.
  - unfold quadrant. now rewrite (ge_true 0 0) by lra.
  - apply pointer_angle_on_axis.
Qed.

End Resolver.

(** ** Value and angle *)

Section ValueAngle.

(** C5.  With [min < max] and [step > 0], the angle of a value of
    [[min, max]] is defined and its value is the value started from: the
    round trip is exact, so within any step. *)
Theorem value_angle_round_trip (k : Knob) (v : R) :
  min k < max k -> 0 < step k -> min k <= v <= max k ->
  exists a : R,
    angle_of_value k v = Py.Ok a /\
    _value k v = Returns (with__angle k a) /\
    value_of_angle k a = v /\
    Rabs (value_of_angle k a - v) < step k.
Proof.
  intros Hr Hst Hv.
  assert (Hne : max k <> min k) by lra.
  exists ((v - min k) * 360 / (- min k + max k)).
  pose proof (angle_of_value_ok k v Hne) as Ea.
  pose proof (value_angle_value k v Hne) as Ev.
  split; [exact Ea |]. split; [| split].
  - unfold _value. now rewrite Ea.
  - exact Ev.
  - rewrite Ev. replace (v - v) with 0 by lra. now rewrite Rabs_R0.
Qed.

Lemma value_angle_round_trip_witness :
  exists a : R,
    angle_of_value (at_rest 0 100 1) 25 = Py.Ok a /\
    _value (at_rest 0 100 1) 25 = Returns (with__angle (at_rest 0 100 1) a) /\
    value_of_angle (at_rest 0 100 1) a = 25 /\
    Rabs (value_of_angle (at_rest 0 100 1) a - 25) < 1.
Proof.
  apply (value_angle_round_trip (at_rest 0 100 1) 25); cbn; lra.
Defined.

(** C6, the claim refuted.  On the widget with min 0 and max 100 the value
    100 is given the angle 360, which is not in [[0, 360)]. *)
Lemma angle_of_max_is_360 :
  _value (at_rest 0 100 1) 100 = Returns (with__angle (at_rest 0 100 1) 360) /\
  ~ (0 <= _angle (state_of (_value (at_rest 0 100 1) 100)) < 360).
Proof.
  assert (E : _value (at_rest 0 100 1) 100 = Returns (with__angle (at_rest 0 100 1) 360)).
  { unfold _value. rewrite angle_of_value_ok by (cbn; lra).
    f_equal. f_equal. cbn. field. }
  split; [exact E |]. rewrite E. cbn. lra.
Qed.

(** C6, as the code has it.  With [min < max] the observer stores
    [(v - min) * 360 / (max - min)] as it is, without reducing it modulo
    360: the angle is in [[0, 360]] for a value of [[min, max]], it is 360
    for [max], below 0 for a value below [min] and above 360 for a value
    above [max]. *)
Theorem angle_of_value_unreduced (k : Knob) (v : R) :
  min k < max k ->
  exists a : R,
    a = (v - min k) * 360 / (max k - min k) /\
    _value k v = Returns (with__angle k a) /\
    (min k <= v <= max k -> 0 <= a <= 360) /\
    (v = max k -> a = 360) /\
    (v < min k -> a < 0) /\
    (max k < v -> 360 < a).
Proof.
  intros Hr.
  assert (Hne : max k <> min k) by lra.
  assert (Hd : 0 < max k - min k) by lra.
  exists ((v - min k) * 360 / (max k - min k)).
  split; [reflexivity |]. split.
  - unfold _value. rewrite angle_of_value_ok by exact Hne.
    now replace (- min k + max k) with (max k - min k) by lra.
  - pose proof (Rinv_0_lt_compat _ Hd) as Hi.
    assert (E : (v - min k) * 360 / (max k - min k)
                = 360 * ((v - min k) * / (max k - min k))) by (unfold Rdiv; ring).
    assert (E1 : (max k - min k) * / (max k - min k) = 1) by (field; lra).
    rewrite E.
    repeat split; intros; try subst v; nra.
Qed.

Lemma angle_of_value_unreduced_witness :
  exists a : R,
    a = (150 - 0) * 360 / (100 - 0) /\
    _value (at_rest 0 100 1) 150 = Returns (with__angle (at_rest 0 100 1) a) /\
    (0 <= 150 <= 100 -> 0 <= a <= 360) /\
    (150 = 100 -> a = 360) /\
    (150 < 0 -> a < 0) /\
    (100 < 150 -> 360 < a).
Proof.
  apply (angle_of_value_unreduced (at_rest 0 100 1) 150). cbn. lra.
Defined.

End ValueAngle.

(** ** The quantizer *)

Section Quantizer.

(** A multiple of a non-zero step by the rounded quotient is a nearest
    multiple. *)
Lemma nearest_multiple (s a : R) (j : Z) :
  s <> 0 ->
  Rabs (s * IZR (Py.round (a / s)) - a) <= Rabs (s * IZR j - a).
Proof.
  intros Hs.
  assert (E : forall m : Z, s * IZR m - a = s * (IZR m - a / s))
    by (intros m; field; exact Hs).
  rewrite !E, !Rabs_mult.
  apply Rmult_le_compat_l; [apply Rabs_pos | apply round_nearest].
Qed.

Lemma int_toward_zero (x : R) :
  Rabs (x - IZR (Py.int x)) < 1 /\ Rabs (IZR (Py.int x)) <= Rabs x.
Proof.
  destruct (int_trunc x) as (H1 & Hpos & Hneg).
  split; [exact H1 |].
  destruct (Rle_dec 0 x) as [Hx | Hx].
  - specialize (Hpos Hx). rewrite !Rabs_right by lra. lra.
  - assert (Hx' : x <= 0) by lra. specialize (Hneg Hx').
    rewrite !Rabs_left1 by lra. lra.
Qed.

(** A hundred and one stops; the raw angle 90 snaps to the 25th multiple of
    360/101, the integer part of which is 89. *)
Lemma snapped_101_stops_90 : snapped (360 / 101) 90 = 89%Z.
Proof.
  apply (snapped_eval (360 / 101) 90 25 89).
  - assert (E : 90 / (360 / 101) = 101 / 4) by field. rewrite E. lra.
  - lra.
  - lra.
Qed.

(** The default widget (min 0, max 100, step 1), pressed to the right of its
    centre: raw angle 90, committed angle 89, value 445/18. *)
Lemma press_right_of_centre :
  on_touch_down (at_rest 0 100 1) (60, 50) =
  Returns (mkKnob (0, 0) (100, 100) 0 100 (445 / 18) 1 89 (360 / 101)).
Proof.
  assert (Hs : angle_step (at_rest 0 100 1) = Py.Ok (360 / 101)).
  { destruct (angle_step_ok (at_rest 0 100 1)) as [E _]; cbn; try lra.
    rewrite E, stops_at_rest. f_equal. field. }
  rewrite press_inside by (apply collide_at_rest; lra).
  rewrite (path_accepted (at_rest 0 100 1) (60, 50) false (360 / 101) Hs);
    [| lra | cbn; lra | apply in_sync_at_rest; lra | reflexivity].
  rewrite touch_angle_right, snapped_101_stops_90.
  unfold committed, value_of_angle. cbn. f_equal. f_equal; lra.
Qed.

End Quantizer.

(** ** Configuration *)

Section Configuration.

(** C8, the claim refuted.  A widget is constructed with [min = max = 50],
    and another with [step = 0]; [max] is set to [min] and [step] to 0 on
    existing widgets.  None of the four fails. *)
Lemma degenerate_configuration_accepted :
  init (0, 0) (100, 100) 50 50 1 50 = Py.Ok (mkKnob (0, 0) (100, 100) 50 50 50 1 0 0) /\
  init (0, 0) (100, 100) 0 100 0 0 = Py.Ok (mkKnob (0, 0) (100, 100) 0 100 0 0 0 0) /\
  set_max (at_rest 50 100 1) 50 = Returns (at_rest 50 50 1) /\
  set_step (at_rest 0 100 1) 0 = Returns (at_rest 0 100 0).
Proof.
  unfold init, set_step. rewrite !lt_false by lra. repeat split.
Qed.

Lemma dispatch_inside (k : Knob) (touch : R * R) (moving : bool) :
  collide_point k touch = true ->
  dispatch k moving touch = update_angle k touch moving.
Proof.
  intros Hc. unfold dispatch.
  destruct moving; [now apply move_inside | now apply press_inside].
Qed.

(** C8, as the code has it.  The only configuration error is the
    [ValueError] of the bounded property, raised at once for [step < 0], at
    construction and at assignment.  [step = 0] and [max = min] are stored.
    With [step = 0] every touch inside the control raises
    [ZeroDivisionError] and leaves the widget as it was.  With [max = min]
    a touch inside the control raises [ZeroDivisionError] when it passes
    the guard with a quantized angle other than the current one while the
    value is not [min]; the value is then already set to [min]. *)
Theorem configuration_errors
  (k : Knob) (p sz : R * R) (mn mx st v : R) (touch : R * R) (moving : bool) :
  (st < 0 ->
   init p sz mn mx st v = Py.Raise Py.ValueError /\
   set_step k st = Raises Py.ValueError k) /\
  (0 <= st ->
   init p sz mn mx st v = Py.Ok (mkKnob p sz mn mx v st 0 0) /\
   set_step k st = Returns (with_step k st)) /\
  set_min k mn = Returns (with_min k mn) /\
  set_max k mx = Returns (with_max k mx) /\
  (collide_point k touch = true -> step k = 0 ->
   dispatch k moving touch = Raises Py.ZeroDivisionError k) /\
  (collide_point k touch = true -> step k <> 0 -> max k = min k ->
   guard k moving (touch_angle k touch) = true ->
   IZR (snapped (360 / stops k) (touch_angle k touch)) <> _angle k ->
   value k <> min k ->
   dispatch k moving touch =
   Raises Py.ZeroDivisionError
          (mkKnob (pos k) (size k) (min k) (max k) (min k) (step k)
                  (_angle k) (360 / stops k))).
Proof.
  split; [| split; [| split; [| split; [| split]]]].
  - intros Hst. unfold init, set_step. now rewrite lt_true by exact Hst.
  - intros Hst. unfold init, set_step. now rewrite lt_false by exact Hst.
  - reflexivity.
  - reflexivity.
  - intros Hc Hz. rewrite (dispatch_inside _ _ _ Hc). now apply update_angle_raises.
  - intros Hc Hst Hr G Hq Hv.
    assert (Hr' : max k - min k + 1 <> 0) by lra.
    destruct (angle_step_ok k Hst Hr') as [Hs Hn].
    rewrite (dispatch_inside _ _ _ Hc).
    rewrite (update_angle_eq k touch moving _ Hs Hn), G.
    rewrite ne_true by exact Hq.
    assert (Ev : forall a, value_of_angle k a = min k).
    { intros a. unfold value_of_angle. rewrite Hr. unfold Rdiv. ring. }
    rewrite Ev.
    rewrite set_value_degenerate; [reflexivity | cbn; congruence | exact Hr].
Qed.

Lemma configuration_errors_witness :
  set_step (at_rest 0 100 1) (- 1) = Raises Py.ValueError (at_rest 0 100 1) /\
  dispatch (at_rest 0 100 0) false (60, 50)
  = Raises Py.ZeroDivisionError (at_rest 0 100 0) /\
  dispatch (mkKnob (0, 0) (100, 100) 50 50 60 1 0 0) false (40, 50)
  = Raises Py.ZeroDivisionError (mkKnob (0, 0) (100, 100) 50 50 50 1 0 360).
Proof.
  split; [| split].
  - apply (configuration_errors (at_rest 0 100 1) (0, 0) (0, 0) 0 0 (- 1) 0 (0, 0) false).
    lra.
  - apply (configuration_errors (at_rest 0 100 0) (0, 0) (0, 0) 0 0 0 0 (60, 50) false).
    + apply collide_at_rest; lra.
    + reflexivity.
  - destruct (configuration_errors (mkKnob (0, 0) (100, 100) 50 50 60 1 0 0)
                (0, 0) (0, 0) 0 0 0 0 (40, 50) false) as (_ & _ & _ & _ & _ & H).
    assert (Es : 360 / stops (mkKnob (0, 0) (100, 100) 50 50 60 1 0 0) = 360)
      by (unfold stops; cbn; field).
    assert (Ea : touch_angle (mkKnob (0, 0) (100, 100) 50 50 60 1 0 0) (40, 50) = 270)
      by apply (touch_angle_left 50 50 1).
    rewrite Es, Ea in H. cbn [pos size min max step _angle value] in H.
    apply H.
    + apply collide_point_inside; cbn; lra.
    + lra.
    + reflexivity.
    + reflexivity.
    + rewrite (snapped_eval 360 270 1 360); lra.
    + lra.
Defined.

End Configuration.

(** ** The geometry of the resolver *)

Section ResolverGeometry.

Lemma PI_below_tight : PI < 3.14159266.
Proof.
  pose proof (PI_2_3_7_ineq 4) as [_ H].
  cbn [Nat.mul Nat.add] in H.
  unfold sum_f_R0, tg_alt, PI_2_3_7_tg, Ratan_seq in H.
  simpl in H. lra.
Qed.

Lemma ge_scale (c x : R) : 0 < c -> Py.ge (c * x) 0 = Py.ge x 0.
Proof.
  intros Hc. destruct (Rle_dec 0 x) as [H | H].
  - rewrite !ge_true; [reflexivity | exact H | nra].
  - rewrite !ge_false; [reflexivity | lra | nra].
Qed.

Lemma lt_scale (c x : R) : 0 < c -> Py.lt (c * x) 0 = Py.lt x 0.
Proof.
  intros Hc. destruct (Rlt_dec x 0) as [H | H].
  - rewrite !lt_true; [reflexivity | exact H | nra].
  - rewrite !lt_false; [reflexivity | lra | nra].
Qed.

(** X1.  The raw angle depends on the direction of the pointer from the
    centre only, not on its distance: scaling the offset by a positive
    factor leaves it unchanged. *)
Theorem pointer_angle_scale (c rx ry : R) :
  0 < c -> pointer_angle (c * rx) (c * ry) = pointer_angle rx ry.
Proof.
  intros Hc.
  destruct (Req_dec_T ry 0) as [-> | Hry].
  - rewrite Rmult_0_r, !pointer_angle_on_axis. now rewrite ge_scale.
  - assert (Hcry : c * ry <> 0) by nra.
    rewrite !pointer_angle_off_axis by assumption.
    rewrite !lt_scale by exact Hc.
    replace (c * rx / (c * ry)) with (rx / ry) by (field; lra).
    reflexivity.
Qed.

Lemma pointer_angle_scale_witness :
  pointer_angle (2 * 3) (2 * 4) = pointer_angle 3 4.
Proof. apply pointer_angle_scale. lra. Defined.

(** X2.  Away from the centre, the point opposite through the centre
    resolves to the angle half a turn away: 180 more when the angle is
    below 180, 180 less otherwise. *)
Theorem pointer_angle_opposite (rx ry : R) :
  rx <> 0 \/ ry <> 0 ->
  pointer_angle (- rx) (- ry) =
  if Py.lt (pointer_angle rx ry) 180
  then pointer_angle rx ry + 180
  else pointer_angle rx ry - 180.
Proof.
  intros Hne.
  destruct (Req_dec_T ry 0) as [-> | Hry].
  - assert (Hrx : rx <> 0) by (destruct Hne; [assumption | contradiction]).
    rewrite Ropp_0, !pointer_angle_on_axis.
    destruct (Rlt_dec rx 0) as [H | H].
    + rewrite (ge_false rx), ge_true, lt_false by lra. lra.
    + rewrite (ge_true rx), ge_false, lt_true by lra. lra.
  - assert (Hry' : - ry <> 0) by lra.
    rewrite !pointer_angle_off_axis by assumption.
    replace (- rx / - ry) with (rx / ry) by (field; lra).
    pose proof (atan_bound (rx / ry)) as [Hlo Hhi].
    pose proof PI_4. pose proof PI_RGT_0.
    destruct (div_sign rx ry Hry) as (S1 & S2 & S3 & S4).
    destruct (Rlt_dec ry 0) as [Hneg | Hpos].
    + rewrite (lt_true ry), (lt_false (- ry)) by lra.
      destruct (Rle_dec rx 0) as [Hx | Hx].
      * pose proof (atan_nonneg _ (S3 Hneg Hx)).
        rewrite (lt_false (- rx)), lt_false by lra. lra.
      * assert (0 < rx) as Hx' by lra.
        pose proof (atan_neg _ (S4 Hneg Hx')).
        rewrite (lt_true (- rx)), lt_true by lra. lra.
    + assert (0 < ry) as Hpos' by lra.
      rewrite (lt_false ry), (lt_true (- ry)) by lra.
      destruct (Rlt_dec rx 0) as [Hx | Hx].
      * pose proof (atan_neg _ (S2 Hpos' Hx)).
        rewrite (lt_true rx), lt_false by lra. lra.
      * assert (0 <= rx) as Hx' by lra.
        pose proof (atan_nonneg _ (S1 Hpos' Hx')).
        rewrite (lt_false rx), lt_true by lra. lra.
Qed.

Lemma pointer_angle_opposite_witness :
  pointer_angle (- 3) (- 4) =
  if Py.lt (pointer_angle 3 4) 180
  then pointer_angle 3 4 + 180
  else pointer_angle 3 4 - 180.
Proof. apply pointer_angle_opposite. left. lra. Defined.

(** X3.  The four directions of the axes resolve exactly, clockwise from
    straight up: up is 0, right is 90, down is 180, left is 270, at any
    distance [d > 0] from the centre. *)
Theorem pointer_angle_axes (d : R) :
  0 < d ->
  pointer_angle 0 d = 0 /\
  pointer_angle d 0 = 90 /\
  pointer_angle 0 (- d) = 180 /\
  pointer_angle (- d) 0 = 270.
Proof.
  intros Hd.
  assert (E0 : forall y : R, y <> 0 -> atan (0 / y) = 0).
  { intros y Hy. replace (0 / y) with 0 by (field; exact Hy). apply atan_0. }
  repeat split.
  - rewrite pointer_angle_off_axis, E0, !lt_false by lra. lra.
  - rewrite pointer_angle_on_axis, ge_true by lra. reflexivity.
  - rewrite pointer_angle_off_axis, E0, lt_true by lra. lra.
  - rewrite pointer_angle_on_axis, ge_false by lra. reflexivity.
Qed.

Lemma pointer_angle_axes_witness :
  pointer_angle 0 10 = 0 /\
  pointer_angle 10 0 = 90 /\
  pointer_angle 0 (- 10) = 180 /\
  pointer_angle (- 10) 0 = 270.
Proof. apply (pointer_angle_axes 10). lra. Defined.

(** X4.  Each quadrant resolves into its quarter of the turn, up to the
    excess the literal 3.141592 leaves: quadrant 1 into [[0, 90.00002)],
    quadrant 2 into [(89.99998, 180)], quadrant 3 into [[180, 270.00002)]
    and quadrant 4 into [(269.99998, 360)]. *)
Theorem pointer_angle_sector (rx ry : R) :
  (quadrant rx ry = 1%Z -> 0 <= pointer_angle rx ry < 90.00002) /\
  (quadrant rx ry = 2%Z -> 89.99998 < pointer_angle rx ry < 180) /\
  (quadrant rx ry = 3%Z -> 180 <= pointer_angle rx ry < 270.00002) /\
  (quadrant rx ry = 4%Z -> 269.99998 < pointer_angle rx ry < 360).
Proof.
  pose proof PI_below_tight as Hpi. pose proof PI_RGT_0 as Hpi0.
  destruct (Req_dec_T ry 0) as [-> | Hry].
  - rewrite pointer_angle_on_axis. unfold quadrant.
    rewrite (ge_true 0 0) by lra.
    destruct (Py.ge rx 0); repeat split; try discriminate; lra.
  - rewrite pointer_angle_off_axis by exact Hry.
    pose proof (atan_bound (rx / ry)) as [Hlo Hhi].
    destruct (div_sign rx ry Hry) as (S1 & S2 & S3 & S4).
    destruct (quadrant_cases rx ry) as [H | [H | [H | H]]];
      destruct H as (H1 & H2 & ->);
      repeat split; try discriminate.
    + assert (0 < ry) as Hp by lra. pose proof (atan_nonneg _ (S1 Hp H2)).
      rewrite !lt_false by lra. lra.
    + assert (0 < ry) as Hp by lra. pose proof (atan_nonneg _ (S1 Hp H2)).
      rewrite !lt_false by lra. lra.
    + assert (0 < ry) as Hp by lra. pose proof (atan_neg _ (S2 Hp H2)).
      rewrite lt_false, lt_true by lra. lra.
    + assert (0 < ry) as Hp by lra. pose proof (atan_neg _ (S2 Hp H2)).
      rewrite lt_false, lt_true by lra. lra.
    + pose proof (atan_nonneg _ (S3 H1 H2)). rewrite lt_true by lra. lra.
    + pose proof (atan_nonneg _ (S3 H1 H2)). rewrite lt_true by lra. lra.
    + pose proof (atan_neg _ (S4 H1 H2)). rewrite lt_true by lra. lra.
    + pose proof (atan_neg _ (S4 H1 H2)). rewrite lt_true by lra. lra.
Qed.

End ResolverGeometry.

(** ** The quantizer as a function of the raw angle *)

Section QuantizerShape.

Lemma int_mono (x y : R) : x <= y -> (Py.int x <= Py.int y)%Z.
Proof.
  intros Hxy. unfold Py.int.
  destruct (Rle_dec 0 x) as [Hx | Hx]; destruct (Rle_dec 0 y) as [Hy | Hy]; try lra.
  - now apply Zfloor_le.
  - pose proof (Zceil_bound x) as Hc.
    assert (H0 : (Zceil x <= 0)%Z).
    { apply Z.lt_succ_r, lt_IZR. rewrite succ_IZR. lra. }
    assert (H1 : (0 <= Zfloor y)%Z) by (apply Zfloor_lub; exact Hy).
    lia.
  - now apply Zceil_le.
Qed.

(** X5.  With a positive step, a larger raw angle never snaps to a smaller
    integer angle. *)
Theorem snapped_monotone (s a b : R) :
  0 < s -> a <= b -> (snapped s a <= snapped s b)%Z.
Proof.
  intros Hs Hab. unfold snapped.
  apply int_mono, Rmult_le_compat_l; [lra |].
  apply IZR_le, round_mono.
  unfold Rdiv. apply Rmult_le_compat_r; [| exact Hab].
  left. now apply Rinv_0_lt_compat.
Qed.

Lemma snapped_monotone_witness : (snapped 10 40 <= snapped 10 50)%Z.
Proof. apply snapped_monotone; lra. Defined.

(** The two parts of the distance from a raw angle to its integer angle:
    to the nearest multiple of the step, and from there to the integer. *)
Lemma snapped_parts (s a : R) :
  s <> 0 ->
  Rabs (s * IZR (Py.round (a / s)) - a) <= Rabs s / 2 /\
  Rabs (s * IZR (Py.round (a / s)) - IZR (snapped s a)) < 1.
Proof.
  intros Hs. split.
  - assert (E : s * IZR (Py.round (a / s)) - a
                = s * (IZR (Py.round (a / s)) - a / s)) by (field; exact Hs).
    rewrite E, Rabs_mult.
    pose proof (round_near (a / s)) as Hn.
    pose proof (Rabs_pos s). nra.
  - unfold snapped. apply int_toward_zero.
Qed.

Lemma snapped_between (s a : R) :
  s <> 0 ->
  - (Rabs s / 2 + 1) < IZR (snapped s a) - a < Rabs s / 2 + 1.
Proof.
  intros Hs. destruct (snapped_parts s a Hs) as [H1 H2].
  apply Rabs_le_bounds in H1. apply Rabs_def2 in H2. lra.
Qed.

(** X6.  The integer angle [quantize] returns is less than half a step
    plus one degree away from the raw angle. *)
Theorem snapped_error (s a : R) :
  s <> 0 -> Rabs (IZR (snapped s a) - a) < Rabs s / 2 + 1.
Proof.
  intros Hs. destruct (snapped_parts s a Hs) as [Hm Ht].
  replace (IZR (snapped s a) - a)
    with (- (s * IZR (Py.round (a / s)) - IZR (snapped s a))
          + (s * IZR (Py.round (a / s)) - a)) by ring.
  eapply Rle_lt_trans; [apply Rabs_triang |].
  rewrite Rabs_Ropp. lra.
Qed.

Lemma snapped_error_witness :
  Rabs (IZR (snapped (360 / 101) 90) - 90) < Rabs (360 / 101) / 2 + 1.
Proof. apply snapped_error. lra. Defined.

(** X7.  With a step above 2 degrees, the integer angle is a fixed point of
    the quantizer: quantizing it again returns it. *)
Theorem snapped_fixed_point (s a : R) :
  2 < s -> snapped s (IZR (snapped s a)) = snapped s a.
Proof.
  intros Hs. unfold snapped at 1. fold (snapped s (IZR (snapped s a))).
  unfold snapped.
  set (m := Py.round (a / s)).
  set (q := Py.int (s * IZR m)).
  destruct (int_toward_zero (s * IZR m)) as [Ht _]. fold q in Ht.
  apply Rabs_def2 in Ht. destruct Ht as [Ht1 Ht2].
  assert (Hi : 0 < / s) by (apply Rinv_0_lt_compat; lra).
  assert (Hi2 : / s < 1 / 2).
  { assert (E : s * / s = 1) by (field; lra). nra. }
  assert (E : IZR q / s = IZR m - (s * IZR m - IZR q) * / s) by (field; lra).
  assert (Hr : Py.round (IZR q / s) = m).
  { apply round_eq. rewrite E. split; nra. }
  now rewrite Hr.
Qed.

Lemma snapped_fixed_point_witness :
  snapped (360 / 101) (IZR (snapped (360 / 101) 90)) = snapped (360 / 101) 90.
Proof. apply snapped_fixed_point. lra. Defined.

End QuantizerShape.

(** ** What a touch can do to the angle *)

Section TouchEffect.

(** A call of [update_angle] leaves the angle as it was or, past the guard,
    sets it to the snapped angle. *)
Lemma update_angle_angle_cases (k : Knob) (touch : R * R) (bp : bool) (s : R) :
  angle_step k = Py.Ok s -> s <> 0 ->
  _angle (state_of (update_angle k touch bp)) = _angle k \/
  (guard k bp (touch_angle k touch) = true /\
   _angle (state_of (update_angle k touch bp)) = IZR (snapped s (touch_angle k touch))).
Proof.
  intros Hs Hn. rewrite (update_angle_eq k touch bp s Hs Hn).
  destruct (guard k bp (touch_angle k touch)) eqn:G; [| now left].
  destruct (Py.ne (IZR (snapped s (touch_angle k touch))) (_angle k)); [| now left].
  unfold set_value.
  destruct (Py.ne _ _); [| now left].
  unfold _value.
  change (angle_of_value (with_value (with__angle_step k s) ?v) ?w)
    with (angle_of_value k w).
  destruct (Req_dec_T (max k) (min k)) as [E | N].
  - rewrite angle_of_value_raises by exact E. now left.
  - rewrite angle_of_value_ok by exact N. right. split; [reflexivity |].
    cbn [state_of _angle with__angle]. now apply angle_value_angle.
Qed.

(** X8.  One move inside the control changes the angle by less than 91
    degrees plus half a step, whatever the state: the guard lets the raw
    angle be at most 90 away and snapping adds less than half a step plus
    one. *)
Theorem move_angle_change_bounded (k : Knob) (touch : R * R) :
  collide_point k touch = true ->
  step k <> 0 -> max k - min k + 1 <> 0 ->
  Rabs (_angle (state_of (on_touch_move k touch)) - _angle k)
  < 91 + Rabs (360 / stops k) / 2.
Proof.
  intros Hc Hst Hr.
  destruct (angle_step_ok k Hst Hr) as [Hs Hn].
  rewrite (move_inside _ _ Hc).
  pose proof (Rabs_pos (360 / stops k)) as Hp.
  destruct (update_angle_angle_cases k touch true _ Hs Hn) as [E | [G E]]; rewrite E.
  - replace (_angle k - _angle k) with 0 by ring. rewrite Rabs_R0. lra.
  - destruct (guard_true_inv k true _ G) as [D | D]; [discriminate |].
    pose proof (snapped_between (360 / stops k) (touch_angle k touch) Hn) as He.
    apply Rabs_le_bounds in D.
    apply Rabs_def1; lra.
Qed.

Lemma move_angle_change_bounded_witness :
  Rabs (_angle (state_of (on_touch_move (at_rest 0 100 1) (60, 50)))
        - _angle (at_rest 0 100 1))
  < 91 + Rabs (360 / stops (at_rest 0 100 1)) / 2.
Proof.
  apply move_angle_change_bounded.
  - apply collide_at_rest; lra.
  - cbn; lra.
  - cbn; lra.
Defined.

(** X9.  A position that has been committed is stable.  When a touch inside
    the control passes the guard on a widget with [min < max], [step > 0]
    and its angle following its value, the handler returns a state on
    which any further press or move at the same position changes
    nothing. *)
Theorem committed_position_stable (k : Knob) (touch : R * R) (moving : bool) :
  collide_point k touch = true ->
  min k < max k -> 0 < step k -> in_sync k ->
  guard k moving (touch_angle k touch) = true ->
  exists k' : Knob,
    dispatch k moving touch = Returns k' /\
    forall again : bool, dispatch k' again touch = Returns k'.
Proof.
  intros Hc Hr Hst Sy G.
  assert (Hst' : step k <> 0) by lra.
  assert (Hr' : max k - min k + 1 <> 0) by lra.
  destruct (angle_step_ok k Hst' Hr') as [Hs Hn].
  set (s := 360 / stops k) in *.
  set (q := snapped s (touch_angle k touch)).
  exists (committed k s q). split.
  - rewrite (dispatch_inside _ _ _ Hc). apply path_accepted; auto. lra.
  - intros again.
    assert (Hc' : collide_point (committed k s q) touch = true) by exact Hc.
    assert (Hs' : angle_step (committed k s q) = Py.Ok s) by exact Hs.
    rewrite (dispatch_inside _ _ _ Hc').
    destruct (guard (committed k s q) again (touch_angle (committed k s q) touch)) eqn:G'.
    + rewrite (path_same_angle (committed k s q) touch again s Hs' Hn G');
        [destruct k; reflexivity | reflexivity].
    + rewrite (path_rejected (committed k s q) touch again s Hs' Hn G').
      destruct k; reflexivity.
Qed.

Lemma committed_position_stable_witness :
  exists k' : Knob,
    dispatch (at_rest 0 100 1) false (40, 50) = Returns k' /\
    forall again : bool, dispatch k' again (40, 50) = Returns k'.
Proof.
  apply committed_position_stable.
  - apply collide_at_rest; lra.
  - cbn; lra.
  - cbn; lra.
  - apply in_sync_at_rest; lra.
  - reflexivity.
Defined.

End TouchEffect.

(** ** Streams of events *)

Section Streams.

(** One event on a steady widget: accepted or not, inside or not, the
    handler returns a steady widget with the same setup, whose angle is the
    old one or the snapped one. *)
Lemma steady_step (k : Knob) (moving : bool) (touch : R * R) :
  steady k ->
  exists k' : Knob,
    dispatch k moving touch = Returns k' /\ steady k' /\ same_setup k k' /\
    (_angle k' = _angle k \/
     _angle k' = IZR (snapped (360 / stops k) (touch_angle k touch))).
Proof.
  intros (Hr & Hst & Sy).
  destruct (collide_point k touch) eqn:Hc.
  - assert (Hst' : step k <> 0) by lra.
    assert (Hr' : max k - min k + 1 <> 0) by lra.
    assert (Hne : max k <> min k) by lra.
    destruct (angle_step_ok k Hst' Hr') as [Hs Hn].
    rewrite (dispatch_inside _ _ _ Hc).
    destruct (guard k moving (touch_angle k touch)) eqn:G.
    + rewrite (path_accepted k touch moving _ Hs Hn Hne Sy G).
      eexists. split; [reflexivity |].
      split; [| split; [repeat split | now right]].
      repeat split; try assumption.
      unfold in_sync. rewrite angle_of_value_ok by exact Hne.
      cbn [committed min max value _angle]. f_equal.
      now apply angle_value_angle.
    + rewrite (path_rejected k touch moving _ Hs Hn G).
      eexists. split; [reflexivity |].
      split; [| split; [repeat split | now left]].
      repeat split; assumption.
  - exists k. split.
    + unfold dispatch, on_touch_move, on_touch_down. rewrite Hc.
      now destruct moving.
    + split; [repeat split; assumption | split; [repeat split | now left]].
Qed.

Lemma same_setup_trans (a b c : Knob) :
  same_setup a b -> same_setup b c -> same_setup a c.
Proof.
  unfold same_setup. intros (A1 & A2 & A3 & A4 & A5) (B1 & B2 & B3 & B4 & B5).
  repeat split; congruence.
Qed.

(** Whatever a handler does, it leaves position, size, [min], [max] and
    [step] alone. *)
Lemma dispatch_same_setup (k : Knob) (moving : bool) (touch : R * R) :
  same_setup k (state_of (dispatch k moving touch)).
Proof.
  assert (G : forall bp : bool, same_setup k (state_of (update_angle k touch bp))).
  { intros bp. unfold update_angle. destruct touch as [posx posy].
    destruct (center k) as [cx cy].
    destruct (angle_step k) as [a | e]; [| repeat split].
    destruct (guard (with__angle_step k a) bp (pointer_angle (posx - cx) (posy - cy)));
      [| repeat split].
    destruct (quantize (_angle_step (with__angle_step k a))
                       (pointer_angle (posx - cx) (posy - cy))) as [q | e];
      [| repeat split].
    destruct (Py.ne (IZR q) (_angle (with__angle_step k a))); [| repeat split].
    unfold set_value. destruct (Py.ne _ _); [| repeat split].
    unfold _value. destruct (angle_of_value _ _); repeat split. }
  unfold dispatch, on_touch_move, on_touch_down.
  destruct moving; destruct (collide_point k touch); try apply G; repeat split.
Qed.

(** The value a handler leaves is the one it found or the value of the
    snapped angle. *)
Lemma dispatch_value_cases (k : Knob) (moving : bool) (touch : R * R) :
  step k <> 0 -> max k - min k + 1 <> 0 ->
  value (state_of (dispatch k moving touch)) = value k \/
  value (state_of (dispatch k moving touch))
  = value_of_angle k (IZR (snapped (360 / stops k) (touch_angle k touch))).
Proof.
  intros Hst Hr.
  destruct (collide_point k touch) eqn:Hc.
  - destruct (angle_step_ok k Hst Hr) as [Hs Hn].
    rewrite (dispatch_inside _ _ _ Hc), (update_angle_eq k touch moving _ Hs Hn).
    destruct (guard k moving (touch_angle k touch)); [| now left].
    destruct (Py.ne _ (_angle k)); [| now left].
    unfold set_value. destruct (Py.ne _ _); [| now left].
    right. unfold _value. destruct (angle_of_value _ _); reflexivity.
  - left. unfold dispatch, on_touch_move, on_touch_down. rewrite Hc.
    now destruct moving.
Qed.

(** X10.  No stream of presses and moves, inside or outside the control,
    changes position, size, [min], [max] or [step], whether it returns or
    raises; and on a widget with [min < max], [step > 0] and its angle
    following its value, the widget it leaves is again such a widget. *)
Theorem stream_keeps_setup (events : list (bool * (R * R))) (k : Knob) :
  same_setup k (state_of (run k events)) /\
  (steady k -> steady (state_of (run k events))).
Proof.
  revert k. induction events as [| [moving touch] rest IH]; intros k.
  - split; [repeat split | auto].
  - cbn [run]. pose proof (dispatch_same_setup k moving touch) as F1.
    split.
    + destruct (dispatch k moving touch) as [k1 | e k1]; cbn [state_of] in *.
      * destruct (IH k1) as [F _]. now apply (same_setup_trans k k1).
      * exact F1.
    + intros Hk.
      destruct (steady_step k moving touch Hk) as (k1 & E1 & S1 & _).
      rewrite E1. destruct (IH k1) as [_ S]. now apply S.
Qed.

Lemma stream_keeps_setup_witness :
  same_setup (at_rest 0 100 1)
    (state_of (run (at_rest 0 100 1)
                   ((false, (40, 50)) :: (true, (49, 51)) :: (true, (500, 7)) :: nil))) /\
  steady (state_of (run (at_rest 0 100 1)
                        ((false, (40, 50)) :: (true, (49, 51)) :: (true, (500, 7)) :: nil))).
Proof.
  destruct (stream_keeps_setup
              ((false, (40, 50)) :: (true, (49, 51)) :: (true, (500, 7)) :: nil)
              (at_rest 0 100 1)) as [F S].
  split; [exact F |]. apply S.
  repeat split; try (cbn; lra). apply in_sync_at_rest; lra.
Defined.

Lemma stops_same_setup (a b : Knob) : same_setup a b -> stops b = stops a.
Proof. intros (_ & _ & E1 & E2 & E3). unfold stops. now rewrite E1, E2, E3. Qed.

Lemma value_of_angle_same_setup (a b : Knob) (x : R) :
  same_setup a b -> value_of_angle b x = value_of_angle a x.
Proof. intros (_ & _ & E1 & E2 & _). unfold value_of_angle. now rewrite E1, E2. Qed.

(** X11.  The dial gives 361 values.  With [min < max], [step > 0] and a
    number of stops that does not round upward, the value a stream of
    events leaves is the value it started from or the value
    [(max - min) * q / 360 + min] of a whole number of degrees [q] of
    [[0, 360]], which lies within [[min, max]]. *)
Theorem stream_value_on_grid (events : list (bool * (R * R))) (k : Knob) :
  min k < max k -> 0 < step k ->
  IZR (Py.round (stops k)) <= stops k ->
  value (state_of (run k events)) = value k \/
  exists q : Z,
    (0 <= q <= 360)%Z /\
    value (state_of (run k events)) = value_of_angle k (IZR q) /\
    min k <= value (state_of (run k events)) <= max k.
Proof.
  revert k. induction events as [| [moving touch] rest IH]; intros k Hr Hst Hround.
  - now left.
  - cbn [run].
    assert (Hst' : step k <> 0) by lra.
    assert (Hr' : max k - min k + 1 <> 0) by lra.
    assert (Hpos : 0 < max k - min k + 1) by lra.
    destruct (angle_step_positive k Hst Hpos) as [HN _].
    pose proof (snapped_range (360 / stops k) (stops k) (touch_angle k touch)
                  HN eq_refl Hround (touch_angle_range k touch)) as Hq.
    assert (Hgrid : forall v : R,
              v = value_of_angle k (IZR (snapped (360 / stops k) (touch_angle k touch))) ->
              exists q : Z, (0 <= q <= 360)%Z /\ v = value_of_angle k (IZR q) /\
                            min k <= v <= max k).
    { intros v ->. exists (snapped (360 / stops k) (touch_angle k touch)).
      split; [destruct Hq; split; apply le_IZR; assumption |].
      split; [reflexivity | now apply value_of_angle_range]. }
    pose proof (dispatch_same_setup k moving touch) as F1.
    pose proof (dispatch_value_cases k moving touch Hst' Hr') as V1.
    destruct (dispatch k moving touch) as [k1 | e k1]; cbn [state_of] in *.
    + pose proof F1 as (_ & _ & Emin & Emax & Estep).
      assert (Hr1 : min k1 < max k1) by (rewrite <- Emin, <- Emax; exact Hr).
      assert (Hst1 : 0 < step k1) by (rewrite <- Estep; exact Hst).
      assert (Hround1 : IZR (Py.round (stops k1)) <= stops k1)
        by (rewrite (stops_same_setup k k1 F1); exact Hround).
      destruct (IH k1 Hr1 Hst1 Hround1) as [E | (q & Hq' & E & Hv)].
      * rewrite E. destruct V1 as [V1 | V1]; [now left | right; now apply Hgrid].
      * right. exists q. rewrite <- Emin, <- Emax in Hv.
        rewrite (value_of_angle_same_setup k k1 _ F1) in E. auto.
    + destruct V1 as [V1 | V1]; [now left | right; now apply Hgrid].
Qed.

Lemma stream_value_on_grid_witness :
  value (state_of (run (at_rest 0 100 1) ((false, (40, 50)) :: (true, (49, 51)) :: nil)))
  = value (at_rest 0 100 1) \/
  exists q : Z,
    (0 <= q <= 360)%Z /\
    value (state_of (run (at_rest 0 100 1) ((false, (40, 50)) :: (true, (49, 51)) :: nil)))
    = value_of_angle (at_rest 0 100 1) (IZR q) /\
    min (at_rest 0 100 1)
    <= value (state_of (run (at_rest 0 100 1) ((false, (40, 50)) :: (true, (49, 51)) :: nil)))
    <= max (at_rest 0 100 1).
Proof.
  apply (stream_value_on_grid _ (at_rest 0 100 1)).
  - cbn; lra.
  - cbn; lra.
  - rewrite stops_at_rest.
    replace ((100 - 0 + 1) / 1) with (IZR 101) by lra.
    rewrite round_IZR. lra.
Defined.

End Streams.

(** ** Value, configuration and the stored angle *)

Section Staleness.

(** X12.  Assigning a new value to a widget with [max <> min] stores it and
    brings the angle in line with it, whatever the angle was; position,
    size and configuration are kept.  Assigning the value already stored
    does nothing at all. *)
Theorem set_value_brings_in_sync (k : Knob) (v : R) :
  max k <> min k ->
  (v <> value k ->
   exists k' : Knob,
     set_value k v = Returns k' /\ value k' = v /\ in_sync k' /\
     same_setup k k' /\ _angle_step k' = _angle_step k) /\
  (v = value k -> set_value k v = Returns k).
Proof.
  intros Hne. split.
  - intros Hv. rewrite (set_value_new k v Hv Hne).
    eexists. split; [reflexivity |].
    split; [reflexivity | split; [| split; [repeat split | reflexivity]]].
    unfold in_sync.
    change (angle_of_value (with__angle (with_value k v) ?a) ?w)
      with (angle_of_value k w).
    cbn [value with__angle with_value]. now apply angle_of_value_ok.
  - now apply set_value_same.
Qed.

Lemma set_value_brings_in_sync_witness :
  exists k' : Knob,
    set_value (mkKnob (0, 0) (100, 100) 0 100 50 1 0 0) 75 = Returns k' /\
    value k' = 75 /\ in_sync k' /\
    same_setup (mkKnob (0, 0) (100, 100) 0 100 50 1 0 0) k' /\
    _angle_step k' = 0.
Proof.
  destruct (set_value_brings_in_sync (mkKnob (0, 0) (100, 100) 0 100 50 1 0 0) 75)
    as [H _].
  - cbn; lra.
  - apply H. cbn; lra.
Defined.

(** X13.  A widget constructed with keyword arguments starts with the angle
    0 whatever its value, because the observer is bound after the
    arguments are stored: with [max <> min] its angle follows its value
    only if the value is [min]. *)
Theorem init_in_sync_iff (p sz : R * R) (mn mx st v : R) :
  0 <= st -> mx <> mn ->
  exists k : Knob,
    init p sz mn mx st v = Py.Ok k /\
    value k = v /\ _angle k = 0 /\
    (in_sync k <-> v = mn).
Proof.
  intros Hst Hne. unfold init. rewrite lt_false by exact Hst.
  eexists. split; [reflexivity |]. split; [reflexivity |]. split; [reflexivity |].
  unfold in_sync. rewrite angle_of_value_ok by (cbn; exact Hne).
  cbn [value min max _angle].
  assert (Hd : - mn + mx <> 0) by lra.
  split.
  - intros E. inversion E as [E1].
    assert (E2 : (v - mn) * 360 = 0).
    { replace ((v - mn) * 360) with ((v - mn) * 360 / (- mn + mx) * (- mn + mx))
        by (field; exact Hd).
      rewrite E1. ring. }
    lra.
  - intros ->. f_equal. unfold Rdiv. ring.
Qed.

Lemma init_in_sync_iff_witness :
  exists k : Knob,
    init (0, 0) (200, 200) 0 100 1 50 = Py.Ok k /\
    value k = 50 /\ _angle k = 0 /\
    (in_sync k <-> 50 = 0).
Proof. apply init_in_sync_iff; lra. Defined.

(** X14.  Changing [max] or [min] never touches value or angle, so it
    leaves the angle stale: on a widget whose angle follows its value,
    after [max] is set to another number the angle no longer follows the
    value unless the value is [min], and after [min] is set to another
    number it no longer does unless the value is [max]. *)
Theorem range_change_leaves_angle_stale (k : Knob) (m : R) :
  max k <> min k -> in_sync k ->
  (m <> max k -> value k <> min k -> ~ in_sync (state_of (set_max k m))) /\
  (m <> min k -> value k <> max k -> ~ in_sync (state_of (set_min k m))) /\
  value (state_of (set_max k m)) = value k /\
  _angle (state_of (set_max k m)) = _angle k /\
  value (state_of (set_min k m)) = value k /\
  _angle (state_of (set_min k m)) = _angle k.
Proof.
  intros Hne Sy. pose proof (in_sync_angle k Hne Sy) as Ea.
  assert (Hd : - min k + max k <> 0) by lra.
  split; [| split; [| repeat split]].
  - intros Hm Hv S'. unfold in_sync in S'. cbn [set_max state_of] in S'.
    destruct (Req_dec_T m (min k)) as [E | N].
    + rewrite angle_of_value_raises in S' by (cbn; exact E). discriminate.
    + rewrite angle_of_value_ok in S' by (cbn; exact N).
      cbn [value min max _angle with_max] in S'. inversion S' as [E1].
      assert (Hd' : - min k + m <> 0) by lra.
      assert (E2 : (value k - min k) * 360 * (- min k + max k)
                   = (value k - min k) * 360 * (- min k + m)).
      { replace ((value k - min k) * 360 * (- min k + max k))
          with ((value k - min k) * 360 / (- min k + m) * (- min k + m)
                * (- min k + max k)) by (field; exact Hd').
        rewrite E1, Ea. field. exact Hd. }
      assert (E3 : (value k - min k) * (max k - m) = 0) by nra.
      apply Rmult_integral in E3. lra.
  - intros Hm Hv S'. unfold in_sync in S'. cbn [set_min state_of] in S'.
    destruct (Req_dec_T (max k) m) as [E | N].
    + rewrite angle_of_value_raises in S' by (cbn; exact E). discriminate.
    + rewrite angle_of_value_ok in S' by (cbn; exact N).
      cbn [value min max _angle with_min] in S'. inversion S' as [E1].
      assert (Hd' : - m + max k <> 0) by lra.
      assert (E2 : (value k - m) * 360 * (- min k + max k)
                   = (value k - min k) * 360 * (- m + max k)).
      { replace ((value k - m) * 360 * (- min k + max k))
          with ((value k - m) * 360 / (- m + max k) * (- m + max k)
                * (- min k + max k)) by (field; exact Hd').
        rewrite E1, Ea. field. exact Hd. }
      assert (E3 : (value k - max k) * (min k - m) = 0) by nra.
      apply Rmult_integral in E3. lra.
Qed.

Lemma range_change_leaves_angle_stale_witness :
  ~ in_sync (state_of (set_max (mkKnob (0, 0) (100, 100) 0 100 50 1 180 0) 200)) /\
  ~ in_sync (state_of (set_min (mkKnob (0, 0) (100, 100) 0 100 50 1 180 0) (- 100))).
Proof.
  assert (Hne : max (mkKnob (0, 0) (100, 100) 0 100 50 1 180 0)
                <> min (mkKnob (0, 0) (100, 100) 0 100 50 1 180 0)) by (cbn; lra).
  assert (Sy : in_sync (mkKnob (0, 0) (100, 100) 0 100 50 1 180 0)).
  { unfold in_sync. rewrite angle_of_value_ok by exact Hne. cbn. f_equal. field. }
  split.
  - destruct (range_change_leaves_angle_stale _ 200 Hne Sy) as (H & _).
    apply H; cbn; lra.
  - destruct (range_change_leaves_angle_stale _ (- 100) Hne Sy) as (_ & H & _).
    apply H; cbn; lra.
Defined.

End Staleness.

(** ** The marker switch *)

Section MarkerSwitch.

Lemma setitem_some (l : list R) (i : nat) (v : R) :
  (i < length l)%nat ->
  exists l' : list R,
    setitem l i v = Some l' /\
    length l' = length l /\
    (forall d : R, nth i l' d = v) /\
    (forall (j : nat) (d : R), j <> i -> nth j l' d = nth j l d) /\
    (forall w : R, setitem l' i w = setitem l i w).
Proof.
  revert i. induction l as [| h t IH]; intros i Hi; [cbn in Hi; lia |].
  destruct i as [| i].
  - exists (v :: t). repeat split; try reflexivity.
    intros [| j] d Hj; [contradiction | reflexivity].
  - cbn in Hi. destruct (IH i) as (t' & E & L & N & O & W); [lia |].
    exists (h :: t'). cbn [setitem]. rewrite E.
    split; [reflexivity |]. split; [cbn; now rewrite L |].
    split; [intros d; cbn; apply N |]. split.
    + intros [| j] d Hj; [reflexivity |]. cbn. apply O. lia.
    + intros w. now rewrite W.
Qed.

Lemma setitem_none (l : list R) (i : nat) (v : R) :
  (length l <= i)%nat -> setitem l i v = None.
Proof.
  revert i. induction l as [| h t IH]; intros i Hi; [reflexivity |].
  destruct i as [| i]; [cbn in Hi; lia |].
  cbn [setitem]. rewrite IH; [reflexivity | cbn in Hi; lia].
Qed.

Lemma setitem_alpha (l : list R) (a : R) :
  (4 <= length l)%nat ->
  exists l' : list R,
    setitem l 3 a = Some l' /\ alpha_set l l' a /\
    (forall w : R, setitem l' 3 w = setitem l 3 w).
Proof.
  intros H. destruct (setitem_some l 3 a) as (l' & E & L & N & O & W); [lia |].
  exists l'. split; [exact E |]. split; [| exact W].
  repeat split; [exact L | apply N | exact O].
Qed.

Lemma set_alpha_done (c : Colors) (a : R) :
  (4 <= length (knobimg_bgcolor c))%nat ->
  (4 <= length (marker_color c))%nat ->
  (4 <= length (markeroff_color c))%nat ->
  exists c' : Colors,
    set_alpha c a = Done c' /\
    alpha_set (knobimg_bgcolor c) (knobimg_bgcolor c') a /\
    alpha_set (marker_color c) (marker_color c') a /\
    alpha_set (markeroff_color c) (markeroff_color c') a /\
    (forall w : R, set_alpha c' w = set_alpha c w).
Proof.
  intros H1 H2 H3.
  destruct (setitem_alpha _ a H1) as (l1 & E1 & A1 & W1).
  destruct (setitem_alpha _ a H2) as (l2 & E2 & A2 & W2).
  destruct (setitem_alpha _ a H3) as (l3 & E3 & A3 & W3).
  exists (mkColors l1 l2 l3). unfold set_alpha.
  rewrite E1. cbn [marker_color markeroff_color knobimg_bgcolor].
  rewrite E2. cbn [marker_color markeroff_color knobimg_bgcolor].
  rewrite E3.
  split; [reflexivity |]. split; [exact A1 |]. split; [exact A2 |].
  split; [exact A3 |].
  intros w. cbn [marker_color markeroff_color knobimg_bgcolor].
  rewrite W1.
  destruct (setitem_alpha _ w H1) as (m1 & F1 & _ & _). rewrite F1.
  cbn [marker_color markeroff_color knobimg_bgcolor]. rewrite W2.
  destruct (setitem_alpha _ w H2) as (m2 & F2 & _ & _). rewrite F2.
  cbn [marker_color markeroff_color knobimg_bgcolor]. rewrite W3.
  destruct (setitem_alpha _ w H3) as (m3 & F3 & _ & _). now rewrite F3.
Qed.

(** X15.  On three colours of at least four channels each, [_show_marker]
    returns; it sets the fourth channel of each to 1 when showing and to 0
    when hiding, and keeps the other channels and the lengths. *)
Theorem show_marker_sets_alpha_only (c : Colors) (v : bool) :
  (4 <= length (knobimg_bgcolor c))%nat ->
  (4 <= length (marker_color c))%nat ->
  (4 <= length (markeroff_color c))%nat ->
  exists c' : Colors,
    _show_marker c v = Done c' /\
    alpha_set (knobimg_bgcolor c) (knobimg_bgcolor c') (if v then 1 else 0) /\
    alpha_set (marker_color c) (marker_color c') (if v then 1 else 0) /\
    alpha_set (markeroff_color c) (markeroff_color c') (if v then 1 else 0).
Proof.
  intros H1 H2 H3. unfold _show_marker.
  destruct v;
    [destruct (set_alpha_done c 1 H1 H2 H3) as (c' & E & A1 & A2 & A3 & _)
    | destruct (set_alpha_done c 0 H1 H2 H3) as (c' & E & A1 & A2 & A3 & _)];
    exists c'; auto.
Qed.

Lemma show_marker_sets_alpha_only_witness :
  exists c' : Colors,
    _show_marker (mkColors (0 :: 0 :: 0 :: 1 :: nil) (1 :: 1 :: 1 :: 1 :: nil)
                           (0 :: 0 :: 0 :: 0 :: nil)) false = Done c' /\
    alpha_set (0 :: 0 :: 0 :: 1 :: nil) (knobimg_bgcolor c') 0 /\
    alpha_set (1 :: 1 :: 1 :: 1 :: nil) (marker_color c') 0 /\
    alpha_set (0 :: 0 :: 0 :: 0 :: nil) (markeroff_color c') 0.
Proof.
  apply (show_marker_sets_alpha_only
           (mkColors (0 :: 0 :: 0 :: 1 :: nil) (1 :: 1 :: 1 :: 1 :: nil)
                     (0 :: 0 :: 0 :: 0 :: nil)) false); cbn; lia.
Defined.

(** X16.  The switch does not remember.  On three colours of at least four
    channels each, a call after another has the effect of the later call
    alone: hiding and then showing leaves every fourth channel at 1,
    whatever it was before. *)
Theorem show_marker_last_call_wins (c : Colors) (v w : bool) :
  (4 <= length (knobimg_bgcolor c))%nat ->
  (4 <= length (marker_color c))%nat ->
  (4 <= length (markeroff_color c))%nat ->
  _show_marker (colors_of (_show_marker c v)) w = _show_marker c w.
Proof.
  intros H1 H2 H3. unfold _show_marker.
  assert (G : forall a b : R, set_alpha (colors_of (set_alpha c a)) b = set_alpha c b).
  { intros a b. destruct (set_alpha_done c a H1 H2 H3) as (c' & E & _ & _ & _ & W).
    assert (Ec : colors_of (set_alpha c a) = c') by now rewrite E.
    rewrite Ec. apply W. }
  destruct v, w; apply G.
Qed.

(** The default [markeroff_color] is transparent; after the marker is
    hidden and shown again it is opaque. *)
Lemma show_marker_last_call_wins_witness :
  _show_marker
    (colors_of (_show_marker (mkColors (0 :: 0 :: 0 :: 1 :: nil) (1 :: 1 :: 1 :: 1 :: nil)
                                       (0 :: 0 :: 0 :: 0 :: nil)) false)) true
  = Done (mkColors (0 :: 0 :: 0 :: 1 :: nil) (1 :: 1 :: 1 :: 1 :: nil)
                   (0 :: 0 :: 0 :: 1 :: nil)).
Proof.
  rewrite (show_marker_last_call_wins
             (mkColors (0 :: 0 :: 0 :: 1 :: nil) (1 :: 1 :: 1 :: 1 :: nil)
                       (0 :: 0 :: 0 :: 0 :: nil)) false true); cbn; try lia.
  reflexivity.
Defined.

(** X17.  A colour of fewer than four channels makes [_show_marker] raise
    [IndexError], and the colours assigned before it stay changed: none
    when [knobimg_bgcolor] is short, [knobimg_bgcolor] when [marker_color]
    is the first short one, both when only [markeroff_color] is. *)
Theorem show_marker_short_colour (c : Colors) (v : bool) :
  ((length (knobimg_bgcolor c) < 4)%nat -> _show_marker c v = IndexError c) /\
  ((4 <= length (knobimg_bgcolor c))%nat -> (length (marker_color c) < 4)%nat ->
   exists bg : list R,
     _show_marker c v = IndexError (mkColors bg (marker_color c) (markeroff_color c)) /\
     alpha_set (knobimg_bgcolor c) bg (if v then 1 else 0)) /\
  ((4 <= length (knobimg_bgcolor c))%nat -> (4 <= length (marker_color c))%nat ->
   (length (markeroff_color c) < 4)%nat ->
   exists bg mk : list R,
     _show_marker c v = IndexError (mkColors bg mk (markeroff_color c)) /\
     alpha_set (knobimg_bgcolor c) bg (if v then 1 else 0) /\
     alpha_set (marker_color c) mk (if v then 1 else 0)).
Proof.
  assert (G : forall a : R,
    ((length (knobimg_bgcolor c) < 4)%nat -> set_alpha c a = IndexError c) /\
    ((4 <= length (knobimg_bgcolor c))%nat -> (length (marker_color c) < 4)%nat ->
     exists bg : list R,
       set_alpha c a = IndexError (mkColors bg (marker_color c) (markeroff_color c)) /\
       alpha_set (knobimg_bgcolor c) bg a) /\
    ((4 <= length (knobimg_bgcolor c))%nat -> (4 <= length (marker_color c))%nat ->
     (length (markeroff_color c) < 4)%nat ->
     exists bg mk : list R,
       set_alpha c a = IndexError (mkColors bg mk (markeroff_color c)) /\
       alpha_set (knobimg_bgcolor c) bg a /\
       alpha_set (marker_color c) mk a)).
  { intros a. split; [| split].
    - intros H. unfold set_alpha. rewrite setitem_none by lia. reflexivity.
    - intros H1 H2. destruct (setitem_alpha _ a H1) as (l1 & E1 & A1 & _).
      exists l1. unfold set_alpha. rewrite E1.
      cbn [marker_color markeroff_color knobimg_bgcolor].
      rewrite setitem_none by lia. auto.
    - intros H1 H2 H3.
      destruct (setitem_alpha _ a H1) as (l1 & E1 & A1 & _).
      destruct (setitem_alpha _ a H2) as (l2 & E2 & A2 & _).
      exists l1, l2. unfold set_alpha. rewrite E1.
      cbn [marker_color markeroff_color knobimg_bgcolor]. rewrite E2.
      cbn [marker_color markeroff_color knobimg_bgcolor].
      rewrite setitem_none by lia. auto. }
  unfold _show_marker. destruct v; apply G.
Qed.

(** [marker_color] given as three channels: the background has lost its
    alpha when the call raises. *)
Lemma show_marker_short_colour_witness :
  exists bg : list R,
    _show_marker (mkColors (0 :: 0 :: 0 :: 1 :: nil) (1 :: 1 :: 1 :: nil)
                           (0 :: 0 :: 0 :: 0 :: nil)) false
    = IndexError (mkColors bg (1 :: 1 :: 1 :: nil) (0 :: 0 :: 0 :: 0 :: nil)) /\
    alpha_set (0 :: 0 :: 0 :: 1 :: nil) bg 0.
Proof.
  destruct (show_marker_short_colour
              (mkColors (0 :: 0 :: 0 :: 1 :: nil) (1 :: 1 :: 1 :: nil)
                        (0 :: 0 :: 0 :: 0 :: nil)) false) as (_ & H & _).
  apply H; cbn; lia.
Defined.

End MarkerSwitch.

(** ** The canvas rules *)

Section CanvasRules.

(** X18.  With a [marker_ahead] that is not negative, the marker never ends
    before its start angle, it ends at the start angle as long as the
    angle of the knob is not above it (no degrees are added then, as at
    angle 0 with a start angle of 0 or more), and its end never moves back
    when the angle grows. *)
Theorem marker_sweep_shape (k k2 : Knob) (marker_startangle marker_ahead : R) :
  0 <= marker_ahead ->
  marker_startangle <= marker_angle_end k marker_startangle marker_ahead /\
  (_angle k <= marker_startangle ->
   marker_angle_end k marker_startangle marker_ahead = marker_startangle) /\
  (marker_startangle < _angle k ->
   marker_angle_end k marker_startangle marker_ahead = _angle k + marker_ahead) /\
  (_angle k <= _angle k2 ->
   marker_angle_end k marker_startangle marker_ahead
   <= marker_angle_end k2 marker_startangle marker_ahead).
Proof.
  intros Ha. unfold marker_angle_end, Py.gt.
  destruct (Rlt_dec marker_startangle (_angle k));
    destruct (Rlt_dec marker_startangle (_angle k2));
    repeat split; intros; lra.
Qed.

Lemma marker_sweep_shape_witness :
  6 <= marker_angle_end (at_rest 0 100 25) 6 6 /\
  marker_angle_end (at_rest 0 100 25) 6 6 = 6.
Proof.
  assert (Ha : 0 <= 6) by lra.
  destruct (marker_sweep_shape (at_rest 0 100 25) (at_rest 0 100 25) 6 6 Ha)
    as (H1 & H2 & _).
  split; [exact H1 | apply H2; cbn; lra].
Defined.

(** X19.  For a [knobimg_size] of [[0, 1]] (the bounds of the property lie
    within it), on a widget whose size is not negative, the rectangle of
    the knob texture has the centre of the widget, the centre the texture
    is rotated about, and lies within the widget. *)
Theorem knob_texture_centred_inside (k : Knob) (v : R) :
  0 <= fst (size k) -> 0 <= snd (size k) -> 0 <= v <= 1 ->
  fst (knobimg_pos k v) + fst (knobimg_rect k v) / 2 = fst (center k) /\
  snd (knobimg_pos k v) + snd (knobimg_rect k v) / 2 = snd (center k) /\
  fst (pos k) <= fst (knobimg_pos k v) /\
  fst (knobimg_pos k v) + fst (knobimg_rect k v) <= fst (pos k) + fst (size k) /\
  snd (pos k) <= snd (knobimg_pos k v) /\
  snd (knobimg_pos k v) + snd (knobimg_rect k v) <= snd (pos k) + snd (size k).
Proof.
  intros Hw Hh [H0 H1].
  unfold knobimg_pos, knobimg_rect, center. cbn [fst snd].
  repeat split; try lra; nra.
Qed.

Lemma knob_texture_centred_inside_witness :
  fst (knobimg_pos (at_rest 0 100 1) (9 / 10))
  + fst (knobimg_rect (at_rest 0 100 1) (9 / 10)) / 2
  = fst (center (at_rest 0 100 1)) /\
  fst (pos (at_rest 0 100 1)) <= fst (knobimg_pos (at_rest 0 100 1) (9 / 10)).
Proof.
  assert (Hw : 0 <= fst (size (at_rest 0 100 1))) by (cbn; lra).
  assert (Hh : 0 <= snd (size (at_rest 0 100 1))) by (cbn; lra).
  assert (Hv : 0 <= 9 / 10 <= 1) by lra.
  destruct (knob_texture_centred_inside (at_rest 0 100 1) (9 / 10) Hw Hh Hv)
    as (H1 & _ & H3 & _).
  split; assumption.
Defined.

End CanvasRules.

(** ** How close a press lands *)

Section PressAccuracy.

(** X20.  A press inside the control, on a widget with [min < max],
    [step > 0] and its angle following its value, leaves a value that
    differs from the exact value of the pointer's angle by less than half
    a step plus the value of one degree. *)
Theorem press_value_error (k : Knob) (touch : R * R) :
  collide_point k touch = true ->
  min k < max k -> 0 < step k -> in_sync k ->
  Rabs (value (state_of (on_touch_down k touch))
        - value_of_angle k (touch_angle k touch))
  < step k / 2 + (max k - min k) / 360.
Proof.
  intros Hc Hr Hst Sy.
  assert (Hst' : step k <> 0) by lra.
  assert (Hr' : max k - min k + 1 <> 0) by lra.
  assert (Hne : max k <> min k) by lra.
  destruct (angle_step_ok k Hst' Hr') as [Hs Hn].
  assert (Hpos : 0 < max k - min k + 1) by lra.
  destruct (angle_step_positive k Hst Hpos) as [HN Hsp].
  rewrite (press_inside _ _ Hc).
  rewrite (path_accepted k touch false _ Hs Hn Hne Sy eq_refl).
  cbn [state_of value committed].
  pose proof (snapped_between (360 / stops k) (touch_angle k touch) Hn) as He.
  rewrite (Rabs_right (360 / stops k)) in He by lra.
  set (s := 360 / stops k) in *.
  set (e := IZR (snapped s (touch_angle k touch)) - touch_angle k touch) in *.
  assert (Es : s * (max k - min k + 1) = 360 * step k).
  { unfold s, stops. field. lra. }
  assert (Ed : value_of_angle k (IZR (snapped s (touch_angle k touch)))
               - value_of_angle k (touch_angle k touch)
               = (max k - min k) * e / 360).
  { unfold value_of_angle, e. field. }
  rewrite Ed.
  destruct He as [He2 He1].
  apply Rabs_def1.
  - assert ((max k - min k) * e < (max k - min k) * (s / 2 + 1)) by nra.
    assert ((max k - min k) * s < 360 * step k) by nra.
    lra.
  - assert ((max k - min k) * - (s / 2 + 1) < (max k - min k) * e) by nra.
    assert ((max k - min k) * s < 360 * step k) by nra.
    lra.
Qed.

Lemma press_value_error_witness :
  Rabs (value (state_of (on_touch_down (at_rest 0 100 1) (60, 50)))
        - value_of_angle (at_rest 0 100 1) (touch_angle (at_rest 0 100 1) (60, 50)))
  < 1 / 2 + (100 - 0) / 360.
Proof.
  apply (press_value_error (at_rest 0 100 1) (60, 50)).
  - apply collide_at_rest; lra.
  - cbn; lra.
  - cbn; lra.
  - apply in_sync_at_rest; lra.
Defined.

End PressAccuracy.

(** ** The quantizer on doubles *)

Section DoubleQuantizer.














End DoubleQuantizer.
